(** * fermipy.jobs.file_archive: a shallow embedding and its properties

    The module keeps track of the files of an analysis: [FileDict] classifies
    the file arguments of a job by role flags, [FileHandle] is the record kept
    for one file, and [FileArchive] stores the records twice, as the rows of a
    table and as a cache keyed by local path.

    Python values are embedded as follows: [str] is [string] (byte strings),
    [int] is [Z], a [dict] keyed by strings is a [gmap string _] (or the list
    of its items where the iteration order can matter), the table is the list
    of its rows.  Methods that read or change the archive, print or raise are
    computations in a state-and-exception monad over [World]. *)

From Stdlib Require Import ZArith Ascii String List Sorted Lia.
From stdpp Require Import base option list gmap strings.

Local Open Scope Z_scope.

(** ** Python built-ins used by the module *)

Module Py.

(** [s.startswith(t)] *)
Definition startswith (s t : string) : bool := String.prefix t s.

(** [s.endswith(t)] *)
Fixpoint endswith (s t : string) : bool :=
  if String.eqb s t then true
  else match s with
       | EmptyString => false
       | String _ s' => endswith s' t
       end.

(** [s[0:n]] for [0 <= n] *)
Fixpoint take (n : nat) (s : string) : string :=
  match n, s with
  | O, _ => EmptyString
  | S _, EmptyString => EmptyString
  | S n', String c s' => String c (take n' s')
  end.

(** The scan of [s.replace(old, new)] for a non-empty [old]: occurrences are
    found from left to right and do not overlap.  [skip] counts the
    characters of the occurrence found last that are still to be passed. *)
Fixpoint replace_go (old new s : string) (skip : nat) : string :=
  match s with
  | EmptyString => EmptyString
  | String c s' =>
      match skip with
      | S k => replace_go old new s' k
      | O =>
          if String.prefix old s
          then new +:+ replace_go old new s' (String.length old - 1)
          else String c (replace_go old new s' O)
      end
  end.

(** [s.replace('', new)] puts [new] before every character and at the end. *)
Fixpoint interleave (new s : string) : string :=
  match s with
  | EmptyString => new
  | String c s' => new +:+ String c (interleave new s')
  end.

(** [s.replace(old, new)] *)
Definition replace (s old new : string) : string :=
  match old with
  | EmptyString => interleave new s
  | String _ _ => replace_go old new s O
  end.

(** The token read so far, when it ends: an empty one is dropped. *)
Definition flush (tok : string) : list string :=
  match tok with
  | EmptyString => []
  | String _ _ => [tok]
  end.

(** The scan of [s.split()]: [tok] is the token being read. *)
Fixpoint split_go (tok s : string) : list string :=
  match s with
  | EmptyString => flush tok
  | String c s' =>
      if Ascii.is_space c
      then flush tok ++ split_go EmptyString s'
      else split_go (tok +:+ String c EmptyString) s'
  end.

(** [s.split()]: the maximal runs of characters that are not white space *)
Definition split (s : string) : list string := split_go EmptyString s.

(** [os.path.join(a, b)] of posixpath *)
Definition os_path_join (a b : string) : string :=
  if startswith b "/" then b
  else if String.eqb a "" || endswith a "/" then a +:+ b
  else a +:+ "/" +:+ b.



(** [old in s] *)
Fixpoint contains (s old : string) : bool :=
  String.prefix old s ||
  match s with
  | EmptyString => false
  | String _ s' => contains s' old
  end.

End Py.

(** ** Enumerations *)

(** [class FileStatus]: the status codes are plain integers. *)
Module FileStatus.
Definition no_file : Z := 0.
Definition expected : Z := 1.
Definition exists_ : Z := 2.
Definition missing : Z := 3.
Definition superseded : Z := 4.
Definition temp_removed : Z := 5.
End FileStatus.

(** [class FileFlags]: bit masks. *)
Module FileFlags.
Definition no_flags : Z := 0.
Definition input_mask : Z := 1.
Definition output_mask : Z := 2.
Definition rm_mask : Z := 4.
Definition gz_mask : Z := 8.
Definition internal_mask : Z := 16.
Definition in_ch_mask : Z :=
  Z.lor (Z.lor (Z.lor input_mask output_mask) rm_mask) internal_mask.
Definition out_ch_mask : Z :=
  Z.lor (Z.lor output_mask rm_mask) internal_mask.
End FileFlags.

(** ** [class FileDict] *)

Module FileDict.

(** One pass of the loop of [latch_file_info]: [key], [val] is an item of
    [file_args], [args] the arguments of the job ([None] is a [Some None]
    entry, a missing key raises the [KeyError] that the loop swallows). *)
Definition latch_item (args : gmap string (option string))
    (file_dict : gmap string Z) (item : string * Z) : gmap string Z :=
  let '(key, val) := item in
  match args !! key with
  | None => file_dict
  | Some None => file_dict
  | Some (Some file_path) =>
      if String.eqb (Py.take 4 key) "args"
      then foldl (fun d token => <[Py.replace token ".gz" "" := val]> d)
                 file_dict (Py.split file_path)
      else <[Py.replace file_path ".gz" "" := val]> file_dict
  end.

(** [latch_file_info(self, args)]: [file_args] is [self.file_args.items()]
    in the order of the iteration; the result is the new [self.file_dict]
    (the old one is cleared first). *)
Definition latch_file_info (file_args : list (string * Z))
    (args : gmap string (option string)) : gmap string Z :=
  foldl (latch_item args) ∅ file_args.

(** One pass of the loop of [update]. *)
Definition update_item (file_dict : gmap string Z) (item : string * Z)
    : gmap string Z :=
  let '(key, val) := item in
  match file_dict !! key with
  | Some old => <[key := Z.lor old val]> file_dict
  | None => <[key := val]> file_dict
  end.

(** The loop of [update] over the items of the argument, in any order. *)
Definition update_items (self_file_dict : gmap string Z)
    (items : list (string * Z)) : gmap string Z :=
  foldl update_item self_file_dict items.

(** [update(self, file_dict)]: the result is the new [self.file_dict]. *)
Definition update (self_file_dict file_dict : gmap string Z)
    : gmap string Z :=
  update_items self_file_dict (map_to_list file_dict).

End FileDict.

(** ** [class FileHandle] *)

(** The members of a [FileHandle] instance, as set by [__init__]. *)
Record FileHandle : Type := {
  key : Z;
  creator : Z;
  timestamp : Z;
  status : Z;
  flags : Z;
  path : string
}.

(** A row of the table built by [FileHandle.make_table]: one cell for each
    of the columns key, path, creator, timestamp, status and flags. *)
Record Row : Type := {
  col_key : Z;
  col_path : string;
  col_creator : Z;
  col_timestamp : Z;
  col_status : Z;
  col_flags : Z
}.

#[global] Instance FileHandle_eq_dec : EqDecision FileHandle.
Proof. solve_decision. Defined.

#[global] Instance Row_eq_dec : EqDecision Row.
Proof. solve_decision. Defined.

(** The values an attribute of a handle can hold. *)
Inductive pyval : Type :=
| VInt (n : Z)
| VStr (s : string).

(** [FileHandle._create_from_row(table_row)] *)
Definition _create_from_row (table_row : Row) : FileHandle :=
  {| key := col_key table_row;
     creator := col_creator table_row;
     timestamp := col_timestamp table_row;
     status := col_status table_row;
     flags := col_flags table_row;
     path := col_path table_row |}.

(** The row that [_append_to_table] and [_update_table_row] build from the
    members of the handle. *)
Definition row_of (h : FileHandle) : Row :=
  {| col_key := key h;
     col_path := path h;
     col_creator := creator h;
     col_timestamp := timestamp h;
     col_status := status h;
     col_flags := flags h |}.

(** [getattr(file_handle, name)]: the instance has the six members that
    [__init__] sets, the class defines no data attribute or property. *)
Definition getattr (h : FileHandle) (name : string) : option pyval :=
  if String.eqb name "key" then Some (VInt (key h))
  else if String.eqb name "creator" then Some (VInt (creator h))
  else if String.eqb name "timestamp" then Some (VInt (timestamp h))
  else if String.eqb name "status" then Some (VInt (status h))
  else if String.eqb name "flags" then Some (VInt (flags h))
  else if String.eqb name "path" then Some (VStr (path h))
  else None.

(** ** The archive and its world *)

(** [class FileArchive]: the table (its rows in order), the cache and the
    base path. *)
Record FileArchive : Type := {
  _table : list Row;
  _cache : gmap string FileHandle;
  _base_path : string
}.

(** What a method can reach: the archive and the lines printed so far. *)
Record World : Type := {
  archive : FileArchive;
  stdout : list string
}.

(** The file system as the methods see it: [fs p] is [None] when
    [os.path.exists(p)] is false, and [Some t] with
    [t = int(os.stat(p).st_mtime)] otherwise. *)
Definition FileSystem : Type := string -> option Z.

(** The exceptions the methods can raise. *)
Inductive exn : Type :=
| KeyError
| ValueError
| AttributeError
| IndexError
| OSError.

Inductive outcome (A : Type) : Type :=
| Return (a : A)
| Raise (e : exn).
Arguments Return {A} a.
Arguments Raise {A} e.

(** A method body: it ends by returning or raising, and what it did to the
    world before stays done in both cases. *)
Definition M (A : Type) : Type := World -> outcome A * World.

Definition ret {A} (a : A) : M A := fun w => (Return a, w).

Definition raise {A} (e : exn) : M A := fun w => (Raise e, w).

Definition bind {A B} (m : M A) (k : A -> M B) : M B :=
  fun w =>
    match m w with
    | (Return a, w') => k a w'
    | (Raise e, w') => (Raise e, w')
    end.

(** [try: body / except KeyError: handler] *)
Definition try_except_KeyError {A} (body handler : M A) : M A :=
  fun w =>
    match body w with
    | (Raise KeyError, w') => handler w'
    | r => r
    end.

Notation "'let*' x ':=' c 'in' k" := (bind c (fun x => k))
  (at level 10, x pattern, c at level 100, k at level 200).
Notation "c ';;' k" := (bind c (fun _ => k))
  (at level 100, k at level 200, right associativity).

Definition get_archive : M FileArchive := fun w => (Return (archive w), w).

Definition put_archive (a : FileArchive) : M unit :=
  fun w => (Return tt, {| archive := a; stdout := stdout w |}).

(** [print(line)] *)
Definition print (line : string) : M unit :=
  fun w => (Return tt, {| archive := archive w; stdout := stdout w ++ [line] |}).

(** ** The methods of [FileArchive] *)

Module Archive.

(** [len(self._table)] *)
Definition table_len (a : FileArchive) : Z := Z.of_nat (length (_table a)).

(** [self._table[i]]: a negative index counts from the end, an index out
    of range raises [IndexError]. *)
Definition table_getitem (i : Z) : M Row :=
  let* a := get_archive in
  let n := table_len a in
  let j := if i <? 0 then i + n else i in
  if (j <? 0) || (n <=? j) then raise IndexError
  else match _table a !! Z.to_nat j with
       | Some row => ret row
       | None => raise IndexError
       end.

(** [self._get_fullpath(filepath)] *)
Definition _get_fullpath (filepath : string) : M string :=
  let* a := get_archive in
  match filepath with
  | EmptyString => raise IndexError
  | String c _ =>
      if Ascii.eqb c "/" then ret filepath
      else ret (Py.os_path_join (_base_path a) filepath)
  end.

(** [self._get_localpath(filepath)] *)
Definition _get_localpath (filepath : string) : M string :=
  let* a := get_archive in
  ret (Py.replace filepath (_base_path a) "").

(** [self._cache[localpath]] *)
Definition cache_getitem (localpath : string) : M FileHandle :=
  let* a := get_archive in
  match _cache a !! localpath with
  | Some file_handle => ret file_handle
  | None => raise KeyError
  end.

(** [self._cache[localpath] = file_handle] *)
Definition cache_setitem (localpath : string) (file_handle : FileHandle)
    : M unit :=
  let* a := get_archive in
  put_archive {| _table := _table a;
                 _cache := <[localpath := file_handle]> (_cache a);
                 _base_path := _base_path a |}.

(** [self.get_handle(filepath)] *)
Definition get_handle (filepath : string) : M FileHandle :=
  let* localpath := _get_localpath filepath in
  cache_getitem localpath.

(** [file_handle._append_to_table(self._table)] *)
Definition _append_to_table (file_handle : FileHandle) : M unit :=
  let* a := get_archive in
  put_archive {| _table := _table a ++ [row_of file_handle];
                 _cache := _cache a;
                 _base_path := _base_path a |}.

(** [file_handle._update_table_row(table_row)]: the body binds the local
    name [table_row] to a new dict and returns; the row passed in and the
    table are not written. *)
Definition _update_table_row (file_handle : FileHandle) (table_row : Row)
    : M unit :=
  let table_row := row_of file_handle in
  ret tt.

(** [os.path.exists(p)] and [int(os.stat(p).st_mtime)] *)
Definition os_path_exists (fs : FileSystem) (p : string) : M bool :=
  ret (bool_decide (is_Some (fs p))).

Definition os_stat_mtime (fs : FileSystem) (p : string) : M Z :=
  match fs p with
  | Some t => ret t
  | None => raise OSError
  end.

(** The line that [register_file] prints when the file is not there. *)
Definition missing_message (fullpath : string) : string :=
  "File " +:+ fullpath +:+
  " does not exist but register_file was called with FileStatus.exists".

(** [self.register_file(filepath, creator, status, flags)] *)
Definition register_file (fs : FileSystem) (filepath : string)
    (creator status flags : Z) : M FileHandle :=
  try_except_KeyError
    (let* file_handle := get_handle filepath in
     raise KeyError)
    (ret tt) ;;
  let* localpath := _get_localpath filepath in
  let* st_ts :=
    (if status =? FileStatus.exists_ then
       let* fullpath := _get_fullpath filepath in
       let* present := os_path_exists fs fullpath in
       if negb present then
         print (missing_message fullpath) ;;
         ret (FileStatus.missing, 0)
       else
         let* timestamp := os_stat_mtime fs fullpath in
         ret (status, timestamp)
     else ret (status, 0)) in
  let* a := get_archive in
  let file_handle :=
    {| path := localpath;
       key := table_len a + 1;
       creator := creator;
       timestamp := snd st_ts;
       status := fst st_ts;
       flags := flags |} in
  _append_to_table file_handle ;;
  cache_setitem localpath file_handle ;;
  ret file_handle.

(** The three assignments to the members of the handle in [update_file].
    [file_handle] is the object that [get_handle(filepath)] returned, the
    one the cache holds under the local path of [filepath]; the result is
    the handle as it is afterwards. *)
Definition set_members (filepath : string) (file_handle : FileHandle)
    (creator timestamp status : Z) : M FileHandle :=
  let file_handle' :=
    {| path := path file_handle;
       key := key file_handle;
       creator := creator;
       timestamp := timestamp;
       status := status;
       flags := flags file_handle |} in
  let* localpath := _get_localpath filepath in
  cache_setitem localpath file_handle' ;;
  ret file_handle'.

(** [file_handle.fullpath] *)
Definition get_fullpath_member (file_handle : FileHandle) : M string :=
  match getattr file_handle "fullpath" with
  | Some (VStr s) => ret s
  | Some (VInt _) => raise AttributeError
  | None => raise AttributeError
  end.

(** [self.update_file(filepath, creator, status)] *)
Definition update_file (fs : FileSystem) (filepath : string)
    (creator status : Z) : M FileHandle :=
  let* file_handle := get_handle filepath in
  let* timestamp :=
    (if (status =? FileStatus.exists_) || (status =? FileStatus.superseded)
     then
       let* fullpath := get_fullpath_member file_handle in
       let* present := os_path_exists fs fullpath in
       if negb present then raise ValueError
       else os_stat_mtime fs fullpath
     else ret 0) in
  let* file_handle :=
    set_members filepath file_handle creator timestamp status in
  let* table_row := table_getitem (key file_handle - 1) in
  _update_table_row file_handle table_row ;;
  ret file_handle.

(** The loop of [get_file_ids]: [creator] and [ret_list] are the local
    variables as they stand when the loop reaches the rest [file_list]. *)
Fixpoint get_file_ids_loop (fs : FileSystem) (file_list : list string)
    (creator : option Z) (status : Z) (file_dict : option (gmap string Z))
    (ret_list : list Z) : M (list Z) :=
  match file_list with
  | [] => ret ret_list
  | fname :: rest =>
      let* flags :=
        match file_dict with
        | None => ret FileFlags.no_flags
        | Some d => match d !! fname with
                    | Some v => ret v
                    | None => raise KeyError
                    end
        end in
      let* found :=
        try_except_KeyError
          (let* fhandle := get_handle fname in ret (fhandle, creator))
          (let creator := match creator with
                          | None => Some (-1)
                          | Some c => Some c
                          end in
           let* fhandle :=
             register_file fs fname (default (-1) creator) status flags in
           ret (fhandle, creator)) in
      get_file_ids_loop fs rest (snd found) status file_dict
        (ret_list ++ [key (fst found)])
  end.

(** [self.get_file_ids(file_list, creator, status, file_dict)] *)
Definition get_file_ids (fs : FileSystem) (file_list : list string)
    (creator : option Z) (status : Z) (file_dict : option (gmap string Z))
    : M (list Z) :=
  get_file_ids_loop fs file_list creator status file_dict [].

(** The archive that [__init__] builds when there is no table file. *)
Definition fresh (base_path : string) : FileArchive :=
  {| _table := []; _cache := ∅; _base_path := base_path |}.

End Archive.

(** ** Sequences of calls *)

(** A call of one of the three methods that change the archive. *)
Inductive call : Type :=
| Register (filepath : string) (creator status flags : Z)
| Update (filepath : string) (creator status : Z)
| GetFileIds (file_list : list string) (creator : option Z) (status : Z)
    (file_dict : option (gmap string Z)).

(** The world after a call, whether it returned or raised, with the file
    system as it is at the time of the call. *)
Definition after (w : World) (c : FileSystem * call) : World :=
  match c with
  | (fs, Register filepath creator status flags) =>
      snd (Archive.register_file fs filepath creator status flags w)
  | (fs, Update filepath creator status) =>
      snd (Archive.update_file fs filepath creator status w)
  | (fs, GetFileIds file_list creator status file_dict) =>
      snd (Archive.get_file_ids fs file_list creator status file_dict w)
  end.

Definition run (calls : list (FileSystem * call)) (w : World) : World :=
  foldl after w calls.

(** A new process with an empty archive. *)
Definition start (base_path : string) : World :=
  {| archive := Archive.fresh base_path; stdout := [] |}.

(** Table and cache hold the same records: every row is the cache entry of
    its path, and every cache entry is a row of the table. *)
Definition lock_step (a : FileArchive) : Prop :=
  (forall row, row ∈ _table a ->
     _cache a !! col_path row = Some (_create_from_row row))
  /\ (forall p h, _cache a !! p = Some h -> row_of h ∈ _table a).


(** The flags of the two operands of a merge, joined as [update] joins them. *)
Definition lor_entries (x y : option Z) : option Z :=
  union_with (fun a b => Some (Z.lor a b)) x y.

(** The file system with one file. *)
Definition one_file (p : string) (mtime : Z) : FileSystem :=
  fun q => if String.eqb q p then Some mtime else None.

(** The file system with no file. *)
Definition no_files : FileSystem := fun _ => None.

(** ** What the methods compute, in closed form *)

(** The local path of [filepath] in the archive [a]. *)
Definition local_of (a : FileArchive) (filepath : string) : string :=
  Py.replace filepath (_base_path a) "".

(** The full path of a non-empty [filepath] in the archive [a]. *)
Definition full_of (a : FileArchive) (filepath : string) : string :=
  match filepath with
  | EmptyString => EmptyString
  | String c _ =>
      if Ascii.eqb c "/" then filepath
      else Py.os_path_join (_base_path a) filepath
  end.

(** Status and timestamp of a new record, and the line printed for it. *)
Definition stamp_of (fs : FileSystem) (a : FileArchive) (filepath : string) (status : Z)
    : Z * Z * list string :=
  if status =? FileStatus.exists_ then
    match fs (full_of a filepath) with
    | Some t => (status, t, [])
    | None =>
        (FileStatus.missing, 0,
         [Archive.missing_message (full_of a filepath)])
    end
  else (status, 0, []).

(** The handle that [register_file] builds. *)
Definition new_handle (fs : FileSystem) (a : FileArchive) (filepath : string)
    (creator status flags : Z) : FileHandle :=
  {| path := local_of a filepath;
     key := Archive.table_len a + 1;
     creator := creator;
     timestamp := snd (fst (stamp_of fs a filepath status));
     status := fst (fst (stamp_of fs a filepath status));
     flags := flags |}.

(** The world in which [h] has been put into table and cache. *)
Definition with_record (w : World) (h : FileHandle) (lines : list string)
    : World :=
  {| archive :=
       {| _table := _table (archive w) ++ [row_of h];
          _cache := <[path h := h]> (_cache (archive w));
          _base_path := _base_path (archive w) |};
     stdout := stdout w ++ lines |}.

(** The flags that [get_file_ids] looks up for [fname]: [None] stands for
    the [KeyError] of [file_dict.file_dict[fname]]. *)
Definition flags_of (file_dict : option (gmap string Z)) (fname : string)
    : option Z :=
  match file_dict with
  | None => Some FileFlags.no_flags
  | Some d => d !! fname
  end.



(** ** The rest of the module *)

(** The views of [FileDict]: [input_files], [output_files] and the others
    run one loop over [self.file_dict.items()] and differ in the test. *)
Module FileViews.

(** The loop of a view: the keys of the items whose flags pass [test]. *)
Definition collect (test : Z -> bool) (items : list (string * Z))
    : list string :=
  foldl (fun ret_list item =>
           if test (snd item) then ret_list ++ [fst item] else ret_list)
        [] items.

(** [if val & mask:] *)
Definition has_flag (mask val : Z) : bool := negb (Z.land val mask =? 0).

Definition input_files (file_dict : gmap string Z) : list string :=
  collect (has_flag FileFlags.input_mask) (map_to_list file_dict).

Definition output_files (file_dict : gmap string Z) : list string :=
  collect (has_flag FileFlags.output_mask) (map_to_list file_dict).

Definition chain_input_files (file_dict : gmap string Z) : list string :=
  collect (fun val => Z.land val FileFlags.in_ch_mask =? FileFlags.input_mask)
          (map_to_list file_dict).

Definition chain_output_files (file_dict : gmap string Z) : list string :=
  collect (fun val => Z.land val FileFlags.out_ch_mask =? FileFlags.output_mask)
          (map_to_list file_dict).

Definition internal_files (file_dict : gmap string Z) : list string :=
  collect (has_flag FileFlags.internal_mask) (map_to_list file_dict).

Definition temp_files (file_dict : gmap string Z) : list string :=
  collect (has_flag FileFlags.rm_mask) (map_to_list file_dict).

Definition gzip_files (file_dict : gmap string Z) : list string :=
  collect (has_flag FileFlags.gz_mask) (map_to_list file_dict).

End FileViews.

(** The flags of a path in a flags map, [0] for a path without entry. *)
Definition flags_at (d : gmap string Z) (p : string) : Z :=
  default 0 (d !! p).

(** The item [(key, val)] of the schema names the path [p] under the
    arguments [args]: [p] is the normalized value of the argument [key], or
    one of its normalized tokens when [key] begins with [args]. *)
Definition names (args : gmap string (option string)) (item : string * Z)
    (p : string) : Prop :=
  exists file_path : string,
    args !! fst item = Some (Some file_path)
    /\ if String.eqb (Py.take 4 (fst item)) "args"
       then exists token : string,
              token ∈ Py.split file_path /\ p = Py.replace token ".gz" ""
       else p = Py.replace file_path ".gz" "".

(** [np.argmax(mask)]: the index of the first [True], and [0] when there is
    none. *)
Fixpoint argmax (mask : list bool) : nat :=
  match mask with
  | [] => O
  | true :: _ => O
  | false :: mask' => if existsb id mask' then S (argmax mask') else O
  end.

(** [get_unique_match(table, colname, value)], with [column] for
    [table[colname]]: the cells of the column and [value] are of one type,
    compared cell by cell. *)
Definition get_unique_match {A : Type} `{EqDecision A} (column : list A)
    (value : A) : outcome nat :=
  let mask := (fun cell => bool_decide (cell = value)) <$> column in
  if bool_decide (length (List.filter id mask) = 1%nat)
  then Return (argmax mask)
  else Raise KeyError.

(** The mask of [get_unique_match] and its sum. *)
Definition mask_of {A : Type} `{EqDecision A} (value : A) (column : list A)
    : list bool :=
  (fun cell => bool_decide (cell = value)) <$> column.

Definition matches {A : Type} `{EqDecision A} (value : A) (column : list A)
    : nat :=
  length (List.filter id (mask_of value column)).

(** [FileHandle.make_table(file_dict)], with [values] for
    [file_dict.values()]. *)
Definition make_table (values : list FileHandle) : list Row :=
  foldl (fun table val => table ++ [row_of val]) [] values.


(** [self._table[indices]] for an array of indices: every index is read as
    [self._table[i]] is. *)
Fixpoint take_rows (indices : list Z) : M (list Row) :=
  match indices with
  | [] => ret []
  | i :: rest =>
      let* row := Archive.table_getitem i in
      let* rows := take_rows rest in
      ret (row :: rows)
  end.

(** [self.get_file_paths(id_list)], with [None] or an array of integers for
    [id_list]. *)
Definition get_file_paths (id_list : option (list Z)) : M (list string) :=
  match id_list with
  | None => ret []
  | Some ids =>
      let* rows := take_rows ((fun k => k - 1) <$> ids) in
      ret (col_path <$> rows)
  end.

(** [self._make_file_handle(row_idx)] *)
Definition _make_file_handle (row_idx : nat) : M FileHandle :=
  let* row := Archive.table_getitem (Z.of_nat row_idx) in
  ret (_create_from_row row).

(** The loop of [_fill_cache] over the row numbers [irows]. *)
Fixpoint fill_rows (irows : list nat) : M unit :=
  match irows with
  | [] => ret tt
  | irow :: rest =>
      let* file_handle := _make_file_handle irow in
      Archive.cache_setitem (path file_handle) file_handle ;;
      fill_rows rest
  end.

(** [self._fill_cache()] *)
Definition _fill_cache : M unit :=
  let* a := get_archive in
  fill_rows (seq 0 (length (_table a))).

(** The table files: [tables f] is [None] when [os.path.exists(f)] is
    false, and the rows that [Table.read(f)] gives otherwise. *)
Definition TableFiles : Type := string -> option (list Row).

(** [self._read_table_file(table_file)]; the archive of the model does not
    keep the name of the file. *)
Definition _read_table_file (tables : TableFiles) (table_file : string)
    : M unit :=
  let* a := get_archive in
  put_archive
    {| _table := match tables table_file with
                 | Some rows => rows
                 | None => make_table []
                 end;
       _cache := _cache a;
       _base_path := _base_path a |} ;;
  _fill_cache.

(** [FileArchive.__init__(self, **kwargs)]: the archive of the world is the
    object under construction, with an empty table until the table file is
    read. *)
Definition init (tables : TableFiles) (kwargs : gmap string string) : M unit :=
  match kwargs !! "base_path" with
  | None => raise KeyError
  | Some base_path =>
      put_archive {| _table := []; _cache := ∅; _base_path := base_path |} ;;
      match kwargs !! "file_archive_table" with
      | None => raise KeyError
      | Some table_file => _read_table_file tables table_file
      end
  end.

(** The cache that [_fill_cache] builds from the rows of a table. *)
Definition cache_of (table : list Row) : gmap string FileHandle :=
  foldl (fun cache row => <[col_path row := _create_from_row row]> cache)
        ∅ table.

(** Every handle of the cache sits under its own path, and the row that its
    key counts to has its path and its key. *)
Definition well_keyed (a : FileArchive) : Prop :=
  forall (p : string) (h : FileHandle),
    _cache a !! p = Some h ->
    path h = p /\ 1 <= key h
    /\ exists row : Row,
         _table a !! Z.to_nat (key h - 1) = Some row
         /\ col_path row = p /\ col_key row = key h.

(** The handle [h] after the three assignments of [update_file]. *)
Definition updated (h : FileHandle) (creator timestamp status : Z)
    : FileHandle :=
  {| path := path h; key := key h; creator := creator;
     timestamp := timestamp; status := status; flags := flags h |}.

(** The world in which the cache holds [h] under [localpath]. *)
Definition with_handle (w : World) (localpath : string) (h : FileHandle)
    : World :=
  {| archive :=
       {| _table := _table (archive w);
          _cache := <[localpath := h]> (_cache (archive w));
          _base_path := _base_path (archive w) |};
     stdout := stdout w |}.

(** In the world [w] the path [p] has a handle, and its key is [k]. *)
Definition resolves (w : World) (p : string) (k : Z) : Prop :=
  exists h : FileHandle,
    Archive.get_handle p w = (Return h, w) /\ key h = k.

(** The world after [__init__] has read the rows [table]. *)
Definition loaded (base_path : string) (table : list Row)
    (out : list string) : World :=
  {| archive := {| _table := table; _cache := cache_of table;
                   _base_path := base_path |};
     stdout := out |}.


(** * Properties *)

(** ** Strings *)

Section Strings.

Lemma str_app_nil_l (s : string) : "" +:+ s = s.
Proof. reflexivity. Qed.

Lemma str_app_cons (c : ascii) (s t : string) :
  String c s +:+ t = String c (s +:+ t).
Proof. reflexivity. Qed.

Lemma prefix_app (old rel : string) : String.prefix old (old +:+ rel) = true.
Proof.
  induction old as [|c old IH].
  - by destruct rel.
  - rewrite str_app_cons. cbn [String.prefix]. by destruct (ascii_dec c c).
Qed.

(** Passing over the rest of an occurrence. *)
Lemma replace_go_skip (old new s1 s2 : string) :
  Py.replace_go old new (s1 +:+ s2) (String.length s1)
  = Py.replace_go old new s2 0.
Proof.
  induction s1 as [|c s1 IH]; [reflexivity|].
  rewrite str_app_cons. simpl. exact IH.
Qed.

Lemma contains_cons (c : ascii) (s old : string) :
  Py.contains (String c s) old = false ->
  String.prefix old (String c s) = false /\ Py.contains s old = false.
Proof.
  intros H. change (Py.contains (String c s) old)
    with (String.prefix old (String c s) || Py.contains s old) in H.
  by apply orb_false_elim in H.
Qed.

(** Nothing is replaced in a string without an occurrence. *)
Lemma replace_go_absent (old new s : string) :
  Py.contains s old = false -> Py.replace_go old new s 0 = s.
Proof.
  induction s as [|c s IH]; [reflexivity|].
  intros [Hp Hc]%contains_cons.
  cbn [Py.replace_go]. rewrite Hp. f_equal. by apply IH.
Qed.

(** An occurrence at the front is replaced, the scan goes on behind it. *)
Lemma replace_go_front (c : ascii) (old new rel : string) :
  Py.replace_go (String c old) new (String c old +:+ rel) 0
  = new +:+ Py.replace_go (String c old) new rel 0.
Proof.
  pose proof (prefix_app (String c old) rel) as Hp.
  rewrite str_app_cons in *. cbn [Py.replace_go]. rewrite Hp. f_equal.
  cbn [String.length]. rewrite Nat.sub_succ, Nat.sub_0_r.
  apply replace_go_skip.
Qed.

(** Removing a base path that stands in front and nowhere else. *)
Lemma replace_base_front (base rel : string) :
  base <> "" -> Py.contains rel base = false ->
  Py.replace (base +:+ rel) base "" = rel.
Proof.
  intros Hne Habs. destruct base as [|c base]; [done|].
  unfold Py.replace. rewrite replace_go_front, str_app_nil_l.
  by apply replace_go_absent.
Qed.












End Strings.

(** ** The classifier *)

Section Classifier.

Implicit Types (d a b : gmap string Z) (items : list (string * Z)).

Lemma lor_entries_None_r (x : option Z) : lor_entries x None = x.
Proof. by destruct x. Qed.

Lemma update_item_lookup d (i k : string) (v : Z) :
  FileDict.update_item d (i, v) !! k
  = if decide (k = i) then lor_entries (d !! i) (Some v) else d !! k.
Proof.
  unfold FileDict.update_item. case_decide as Hk.
  - subst k. destruct (d !! i) eqn:E; by rewrite lookup_insert_eq.
  - destruct (d !! i); by rewrite lookup_insert_ne.
Qed.

(** The loop of [update] over items with distinct keys. *)
Lemma update_items_lookup items d (k : string) :
  NoDup items.*1 ->
  FileDict.update_items d items !! k
  = lor_entries (d !! k) ((list_to_map items : gmap string Z) !! k).
Proof.
  revert d. induction items as [|[i v] items IH]; intros d Hnd.
  - cbn. by rewrite lookup_empty, lor_entries_None_r.
  - apply NoDup_cons in Hnd as [Hi Hnd].
    change (FileDict.update_items d ((i, v) :: items))
      with (FileDict.update_items (FileDict.update_item d (i, v)) items).
    rewrite (IH _ Hnd), update_item_lookup.
    change (list_to_map ((i, v) :: items) : gmap string Z)
      with (<[i := v]> (list_to_map items : gmap string Z)).
    case_decide as Hk.
    + subst k. rewrite lookup_insert_eq.
      rewrite (not_elem_of_list_to_map_1 _ _ Hi). apply lor_entries_None_r.
    + by rewrite lookup_insert_ne.
Qed.

Lemma update_lookup a b (k : string) :
  FileDict.update a b !! k = lor_entries (a !! k) (b !! k).
Proof.
  unfold FileDict.update.
  rewrite update_items_lookup by apply NoDup_fst_map_to_list.
  by rewrite list_to_map_to_list.
Qed.

(** The order in which the items of the argument come does not matter. *)
Lemma update_any_order a b items :
  items ≡ₚ map_to_list b -> FileDict.update_items a items = FileDict.update a b.
Proof.
  intros Hp. apply map_eq. intros k.
  assert (NoDup items.*1) as Hnd.
  { rewrite Hp. apply NoDup_fst_map_to_list. }
  rewrite update_lookup, (update_items_lookup _ _ _ Hnd).
  rewrite (list_to_map_proper _ _ Hnd Hp). by rewrite list_to_map_to_list.
Qed.

Lemma lor_entries_comm (x y : option Z) : lor_entries x y = lor_entries y x.
Proof. destruct x, y; cbn; try reflexivity. by rewrite Z.lor_comm. Qed.

Lemma lor_entries_diag (x : option Z) : lor_entries x x = x.
Proof. destruct x; cbn; [|reflexivity]. by rewrite Z.lor_diag. Qed.





End Classifier.

(** C8. A merge ORs the flags of the two maps path by path, an entry that
    only one of them has is taken as it is; merging [a] into [b] and [b]
    into [a] give the same map, and merging a map into itself changes
    nothing. *)
Theorem merge_or_commutative_idempotent (a b : gmap string Z) :
  (forall p : string, FileDict.update a b !! p = lor_entries (a !! p) (b !! p))
  /\ FileDict.update a b = FileDict.update b a
  /\ FileDict.update a a = a.
Proof.
  split; [intros p; apply update_lookup|]. split.
  - apply map_eq. intros p. rewrite !update_lookup. apply lor_entries_comm.
  - apply map_eq. intros p. rewrite update_lookup. apply lor_entries_diag.
Qed.




(** ** The archive *)

Section Archive_facts.

Context (fs : FileSystem).

Lemma bind_Return {A B} (m : M A) (k : A -> M B) w a w' :
  m w = (Return a, w') -> bind m k w = k a w'.
Proof. unfold bind. by intros ->. Qed.

Lemma bind_Raise {A B} (m : M A) (k : A -> M B) w e w' :
  m w = (Raise e, w') -> bind m k w = (Raise e, w').
Proof. unfold bind. by intros ->. Qed.

Lemma _get_localpath_run filepath w :
  Archive._get_localpath filepath w
  = (Return (local_of (archive w) filepath), w).
Proof. reflexivity. Qed.

Lemma _get_fullpath_run filepath w :
  filepath <> "" ->
  Archive._get_fullpath filepath w
  = (Return (full_of (archive w) filepath), w).
Proof.
  intros Hne. destruct filepath as [|c s]; [done|].
  unfold Archive._get_fullpath, full_of, bind, get_archive.
  by destruct (Ascii.eqb c "/").
Qed.

Lemma get_handle_run filepath w :
  Archive.get_handle filepath w
  = match _cache (archive w) !! local_of (archive w) filepath with
    | Some h => (Return h, w)
    | None => (Raise KeyError, w)
    end.
Proof.
  unfold Archive.get_handle, Archive.cache_getitem, bind, get_archive.
  rewrite _get_localpath_run.
  by destruct (_cache (archive w) !! local_of (archive w) filepath).
Qed.

(** The [KeyError] that [register_file] raises for a path that has a
    handle is caught by its own [except] clause. *)
Lemma duplicate_check_run filepath w :
  try_except_KeyError
    (let* file_handle := Archive.get_handle filepath in raise KeyError)
    (ret tt) w
  = (Return tt, w).
Proof.
  unfold try_except_KeyError, bind. rewrite get_handle_run.
  by destruct (_cache (archive w) !! local_of (archive w) filepath).
Qed.

(** [register_file] returns for every path, tracked or not, but for the
    empty path with status [exists]. *)
Lemma register_file_run filepath creator status flags w :
  filepath <> "" \/ status <> FileStatus.exists_ ->
  Archive.register_file fs filepath creator status flags w
  = (Return (new_handle fs (archive w) filepath creator status flags),
     with_record w (new_handle fs (archive w) filepath creator status flags)
       (snd (stamp_of fs (archive w) filepath status))).
Proof.
  intros Hok. unfold Archive.register_file.
  rewrite (bind_Return _ _ _ _ _ (duplicate_check_run filepath w)).
  rewrite (bind_Return _ _ _ _ _ (_get_localpath_run filepath w)).
  unfold new_handle, stamp_of, with_record.
  destruct w as [a out]. cbn [archive stdout].
  destruct (status =? FileStatus.exists_) eqn:Hst.
  - assert (filepath <> "") as Hne.
    { destruct Hok as [?|Hs]; [done|]. apply Z.eqb_eq in Hst. done. }
    unfold bind at 1.
    rewrite (bind_Return _ _ _ _ _ (_get_fullpath_run filepath _ Hne)).
    cbn [archive]. unfold Archive.os_path_exists, Archive.os_stat_mtime.
    destruct (fs (full_of a filepath)) as [t|] eqn:Hfs.
    + unfold bind, ret, get_archive, Archive._append_to_table,
        Archive.cache_setitem, put_archive. cbn.
      by rewrite app_nil_r.
    + unfold bind, ret, get_archive, Archive._append_to_table,
        Archive.cache_setitem, put_archive, print. cbn.
      reflexivity.
  - unfold bind, ret, get_archive, Archive._append_to_table,
      Archive.cache_setitem, put_archive. cbn.
    by rewrite app_nil_r.
Qed.

Lemma register_file_empty creator flags w :
  Archive.register_file fs "" creator FileStatus.exists_ flags w
  = (Raise IndexError, w).
Proof.
  unfold Archive.register_file.
  rewrite (bind_Return _ _ _ _ _ (duplicate_check_run "" w)).
  by rewrite (bind_Return _ _ _ _ _ (_get_localpath_run "" w)).
Qed.

End Archive_facts.

Section Update_facts.

Context (fs : FileSystem).

Lemma fullpath_member_run (h : FileHandle) w :
  Archive.get_fullpath_member h w = (Raise AttributeError, w).
Proof. reflexivity. Qed.

(** The world in which the members of the handle under [localpath] have
    been assigned. *)
Lemma set_members_run filepath h creator timestamp status w :
  Archive.set_members filepath h creator timestamp status w
  = (Return {| path := path h; key := key h; creator := creator;
               timestamp := timestamp; status := status; flags := flags h |},
     {| archive :=
          {| _table := _table (archive w);
             _cache := <[local_of (archive w) filepath :=
                          {| path := path h; key := key h;
                             creator := creator; timestamp := timestamp;
                             status := status; flags := flags h |}]>
                         (_cache (archive w));
             _base_path := _base_path (archive w) |};
        stdout := stdout w |}).
Proof. reflexivity. Qed.

Lemma table_getitem_world i w : snd (Archive.table_getitem i w) = w.
Proof.
  unfold Archive.table_getitem, bind, get_archive. cbn.
  destruct ((_ <? 0) || _); [reflexivity|].
  by destruct (_table (archive w) !! _).
Qed.

(** [update_file] with status [exists] or [superseded] stops at the
    member [fullpath], which a handle does not have. *)
Lemma update_file_checked_run filepath creator status h0 w :
  Archive.get_handle filepath w = (Return h0, w) ->
  status = FileStatus.exists_ \/ status = FileStatus.superseded ->
  Archive.update_file fs filepath creator status w
  = (Raise AttributeError, w).
Proof.
  intros Hh Hst. unfold Archive.update_file.
  rewrite (bind_Return _ _ _ _ _ Hh).
  assert ((status =? FileStatus.exists_) || (status =? FileStatus.superseded)
          = true) as ->.
  { destruct Hst as [-> | ->]; reflexivity. }
  apply bind_Raise. apply bind_Raise. apply fullpath_member_run.
Qed.

(** No call of [update_file] writes the table. *)
Lemma update_file_table filepath creator status w :
  _table (archive (snd (Archive.update_file fs filepath creator status w)))
  = _table (archive w).
Proof.
  unfold Archive.update_file. unfold bind at 1. rewrite get_handle_run.
  destruct (_cache (archive w) !! local_of (archive w) filepath) as [h0|];
    [|reflexivity].
  unfold bind at 1.
  destruct ((status =? FileStatus.exists_) || (status =? FileStatus.superseded)).
  - unfold bind at 1. by rewrite fullpath_member_run.
  - unfold ret at 1. unfold bind at 1. rewrite set_members_run.
    unfold bind at 1.
    match goal with
    | |- context [Archive.table_getitem ?i ?w'] =>
        pose proof (table_getitem_world i w') as Hw;
        destruct (Archive.table_getitem i w') as [[row|e] w'']
    end; cbn in Hw; subst; reflexivity.
Qed.

End Update_facts.



(** C1, what the code does instead.  The [KeyError] raised for a tracked
    path is caught inside [register_file]: the call returns a new record
    with the next key, appends its row to the table and makes it the handle
    of the path. *)
Theorem register_file_accepts_tracked_path (fs : FileSystem) (w : World)
    (filepath : string) (creator status flags : Z) (h0 : FileHandle) :
  filepath <> "" ->
  Archive.get_handle filepath w = (Return h0, w) ->
  exists (h : FileHandle) (w' : World),
    Archive.register_file fs filepath creator status flags w = (Return h, w')
    /\ key h = Archive.table_len (archive w) + 1
    /\ _table (archive w') = _table (archive w) ++ [row_of h]
    /\ Archive.get_handle filepath w' = (Return h, w').
Proof.
  intros Hne _. eexists _, _.
  split; [apply register_file_run; by left|].
  split; [reflexivity|]. split; [reflexivity|].
  rewrite get_handle_run. unfold with_record, new_handle, local_of. cbn.
  by rewrite lookup_insert_eq.
Qed.

Lemma register_file_accepts_tracked_path_witness :
  exists (h : FileHandle) (w' : World),
    Archive.register_file (one_file "/data/run1/evt.fits" 1000)
      "/data/run1/evt.fits" 7 FileStatus.exists_ 0
      (run [(one_file "/data/run1/evt.fits" 1000,
             Register "/data/run1/evt.fits" 7 FileStatus.exists_ 0)]
           (start "/data/"))
    = (Return h, w')
    /\ key h = 2
    /\ length (_table (archive w')) = 2%nat.
Proof.
  destruct (register_file_accepts_tracked_path
              (one_file "/data/run1/evt.fits" 1000)
              (run [(one_file "/data/run1/evt.fits" 1000,
                     Register "/data/run1/evt.fits" 7 FileStatus.exists_ 0)]
                   (start "/data/"))
              "/data/run1/evt.fits" 7 FileStatus.exists_ 0
              {| key := 1; creator := 7; timestamp := 1000;
                 status := FileStatus.exists_; flags := 0;
                 path := "run1/evt.fits" |})
    as (h & w' & Hrun & Hkey & Htab & _).
  - discriminate.
  - vm_compute. reflexivity.
  - exists h, w'. split; [exact Hrun|]. split.
    + rewrite Hkey. reflexivity.
    + rewrite Htab. reflexivity.
Defined.

(** C2, what the code does instead.  For a tracked path and the status
    [exists] or [superseded], [update_file] reads the member [fullpath] of
    the handle, which no handle has: the call raises [AttributeError], with
    the file on disk or not, and leaves the world as it was. *)
Theorem update_file_raises_AttributeError (fs : FileSystem) (w : World)
    (filepath : string) (creator status : Z) (h0 : FileHandle) :
  Archive.get_handle filepath w = (Return h0, w) ->
  status = FileStatus.exists_ \/ status = FileStatus.superseded ->
  Archive.update_file fs filepath creator status w = (Raise AttributeError, w).
Proof. apply update_file_checked_run. Qed.

Lemma update_file_raises_AttributeError_witness :
  Archive.update_file no_files "a.fits" 1 FileStatus.exists_
    (run [(no_files, Register "a.fits" 1 FileStatus.expected 0)]
         (start "/data/"))
  = (Raise AttributeError,
     run [(no_files, Register "a.fits" 1 FileStatus.expected 0)]
         (start "/data/")).
Proof.
  apply (update_file_raises_AttributeError no_files _ "a.fits" 1
           FileStatus.exists_
           {| key := 1; creator := 1; timestamp := 0;
              status := FileStatus.expected; flags := 0; path := "a.fits" |}).
  - vm_compute. reflexivity.
  - left. reflexivity.
Defined.

(** C3, what the code does instead.  [update_file] never writes the table:
    after a registration and an update of the same path the cache holds the
    new creator and status and the row still holds the old ones. *)
Theorem update_file_leaves_row_stale :
  (forall (fs : FileSystem) (filepath : string) (creator status : Z)
          (w : World),
     _table (archive (snd (Archive.update_file fs filepath creator status w)))
     = _table (archive w))
  /\ lock_step
       (archive (run [(no_files, Register "a.fits" 1 FileStatus.no_file 0)]
                     (start "/data/")))
  /\ ~ lock_step
         (archive (run [(no_files, Register "a.fits" 1 FileStatus.no_file 0);
                        (no_files, Update "a.fits" 2 FileStatus.expected)]
                       (start "/data/"))).
Proof.
  split; [apply update_file_table|]. split.
  - split.
    + intros row Hrow. vm_compute in Hrow.
      apply list_elem_of_singleton in Hrow as ->. vm_compute. reflexivity.
    + intros p h Hp.
      assert (_cache (archive (run [(no_files,
                Register "a.fits" 1 FileStatus.no_file 0)] (start "/data/")))
              = {["a.fits" := {| key := 1; creator := 1; timestamp := 0;
                                 status := 0; flags := 0; path := "a.fits" |}]})
        as Hc by (vm_compute; reflexivity).
      rewrite Hc in Hp. apply lookup_singleton_Some in Hp as [<- <-].
      vm_compute. apply list_elem_of_singleton. reflexivity.
  - intros [_ Hcache].
    specialize (Hcache "a.fits"
      {| key := 1; creator := 2; timestamp := 0; status := 1; flags := 0;
         path := "a.fits" |}).
    assert (row_of {| key := 1; creator := 2; timestamp := 0; status := 1;
                      flags := 0; path := "a.fits" |}
            ∈ [{| col_key := 1; col_path := "a.fits"; col_creator := 1;
                  col_timestamp := 0; col_status := 0; col_flags := 0 |}])
      as Hin by (apply Hcache; vm_compute; reflexivity).
    apply list_elem_of_singleton in Hin. discriminate Hin.
Qed.




(** ** Resolving paths to keys *)

Section Resolve_facts.

Context (fs : FileSystem).

(** One pass of the loop of [get_file_ids]. *)
Lemma get_file_ids_loop_cons fname rest creator status file_dict acc w :
  Archive.get_file_ids_loop fs (fname :: rest) creator status file_dict acc w
  = match flags_of file_dict fname with
    | None => (Raise KeyError, w)
    | Some flags =>
        match _cache (archive w) !! local_of (archive w) fname with
        | Some h =>
            Archive.get_file_ids_loop fs rest creator status file_dict
              (acc ++ [key h]) w
        | None =>
            match Archive.register_file fs fname (default (-1) creator)
                    status flags w with
            | (Return h, w') =>
                Archive.get_file_ids_loop fs rest
                  (Some (default (-1) creator)) status file_dict
                  (acc ++ [key h]) w'
            | (Raise e, w') => (Raise e, w')
            end
        end
    end.
Proof.
  cbn [Archive.get_file_ids_loop]. unfold bind at 1.
  assert ((match file_dict with
           | Some d => match d !! fname with
                       | Some v => ret v
                       | None => raise KeyError
                       end
           | None => ret FileFlags.no_flags
           end) w
          = match flags_of file_dict fname with
            | Some v => (Return v, w)
            | None => (Raise KeyError, w)
            end) as ->.
  { destruct file_dict as [d|]; [|reflexivity]. cbn.
    by destruct (d !! fname). }
  destruct (flags_of file_dict fname) as [v|]; [|reflexivity].
  unfold bind at 1, try_except_KeyError. unfold bind at 1.
  rewrite get_handle_run.
  destruct (_cache (archive w) !! local_of (archive w) fname) as [h|];
    [reflexivity|].
  unfold bind at 1.
  assert (default (-1) (match creator with
                        | Some c => Some c
                        | None => Some (-1)
                        end) = default (-1) creator) as ->
    by (by destruct creator).
  destruct (Archive.register_file fs fname (default (-1) creator) status v w)
    as [[h|e] w']; [|reflexivity].
  cbn. by destruct creator.
Qed.


End Resolve_facts.



Section Unclassified.

Context (fs : FileSystem) (status : Z) (file_dict : option (gmap string Z)).

(** The loop over a list that goes on behind [pre] picks up where the
    loop over [pre] ends. *)
Lemma get_file_ids_loop_app pre rest creator acc w ks w1 :
  Archive.get_file_ids_loop fs pre creator status file_dict acc w
  = (Return ks, w1) ->
  exists creator',
    Archive.get_file_ids_loop fs (pre ++ rest) creator status file_dict acc w
    = Archive.get_file_ids_loop fs rest creator' status file_dict ks w1.
Proof.
  revert creator acc w.
  induction pre as [|fname pre IH]; intros creator acc w Hpre.
  - cbn in Hpre. injection Hpre as <- <-. by exists creator.
  - change ((fname :: pre) ++ rest) with (fname :: (pre ++ rest)).
    rewrite get_file_ids_loop_cons in Hpre |- *.
    destruct (flags_of file_dict fname) as [v|]; [|discriminate Hpre].
    destruct (_cache (archive w) !! local_of (archive w) fname) as [h|].
    + by apply IH.
    + destruct (Archive.register_file fs fname (default (-1) creator)
                  status v w) as [[h|e] w']; [|discriminate Hpre].
      by apply IH.
Qed.

End Unclassified.

(** C10. With a classifier, [get_file_ids] raises [KeyError] at the first
    path of the list for which the classifier has no flags: the paths before
    it have been resolved, the path itself is neither looked up in the
    archive nor registered, and the world is the one the paths before it
    left. *)
Theorem get_file_ids_unclassified_path (fs : FileSystem) (w w1 : World)
    (pre post : list string) (fname : string) (creator : option Z)
    (status : Z) (d : gmap string Z) (ks : list Z) :
  Archive.get_file_ids fs pre creator status (Some d) w = (Return ks, w1) ->
  d !! fname = None ->
  Archive.get_file_ids fs (pre ++ fname :: post) creator status (Some d) w
  = (Raise KeyError, w1).
Proof.
  unfold Archive.get_file_ids. intros Hpre Hd.
  destruct (get_file_ids_loop_app fs status (Some d) pre (fname :: post)
              creator [] w ks w1 Hpre) as [creator' ->].
  rewrite get_file_ids_loop_cons. cbn [flags_of]. by rewrite Hd.
Qed.

Lemma get_file_ids_unclassified_path_witness :
  Archive.get_file_ids no_files (["a.fits"] ++ "b.fits" :: ["c.fits"])
    (Some 3) FileStatus.expected (Some {["a.fits" := FileFlags.input_mask]})
    (start "/data/")
  = (Raise KeyError,
     run [(no_files, Register "a.fits" 3 FileStatus.expected
                       FileFlags.input_mask)] (start "/data/")).
Proof.
  apply (get_file_ids_unclassified_path no_files (start "/data/") _
           ["a.fits"] ["c.fits"] "b.fits" (Some 3) FileStatus.expected
           {["a.fits" := FileFlags.input_mask]} [1]).
  - vm_compute. reflexivity.
  - vm_compute. reflexivity.
Defined.

(** ** Keys *)

Section Keys.







Context (fs : FileSystem).




End Keys.




(** * More of the module *)

(** ** The views of the classifier *)

Section Views.

Implicit Types (d a b : gmap string Z) (p : string) (v mask : Z).

Lemma collect_elem (test : Z -> bool) (items : list (string * Z))
    (acc : list string) p :
  p ∈ foldl (fun ret_list item =>
               if test (snd item) then ret_list ++ [fst item] else ret_list)
            acc items
  <-> p ∈ acc \/ exists v, (p, v) ∈ items /\ test v = true.
Proof.
  revert acc. induction items as [|[k v] items IH]; intros acc; cbn [foldl].
  - split; [by left|]. intros [H|(v & H & _)]; [done|]. by apply elem_of_nil in H.
  - rewrite IH. cbn [fst snd]. split.
    + intros [H|(v' & H & Ht)].
      * destruct (test v) eqn:Hv; [|by left].
        apply elem_of_app in H as [H|H]; [by left|].
        apply list_elem_of_singleton in H as ->. right. exists v.
        split; [apply elem_of_cons; by left | done].
      * right. exists v'. split; [apply elem_of_cons; by right | done].
    + intros [H|(v' & H & Ht)].
      * left. destruct (test v); [|done]. apply elem_of_app. by left.
      * apply elem_of_cons in H as [H|H].
        -- injection H as -> ->. left. rewrite Ht. apply elem_of_app. right.
           by apply list_elem_of_singleton.
        -- right. by exists v'.
Qed.

(** A view holds the paths whose flags pass its test. *)
Lemma collect_map (test : Z -> bool) d p :
  p ∈ FileViews.collect test (map_to_list d)
  <-> exists v, d !! p = Some v /\ test v = true.
Proof.
  unfold FileViews.collect. rewrite collect_elem. split.
  - intros [H|(v & H & Ht)]; [by apply elem_of_nil in H|].
    exists v. by apply elem_of_map_to_list in H.
  - intros (v & H & Ht). right. exists v. by apply elem_of_map_to_list in H.
Qed.

Lemma has_flag_0 mask : FileViews.has_flag mask 0 = false.
Proof. reflexivity. Qed.

Lemma view_flag mask d p :
  p ∈ FileViews.collect (FileViews.has_flag mask) (map_to_list d)
  <-> FileViews.has_flag mask (flags_at d p) = true.
Proof.
  rewrite collect_map. unfold flags_at. split.
  - by intros (v & -> & Hv).
  - destruct (d !! p) as [v|]; cbn; [|by rewrite has_flag_0].
    intros Hv. by exists v.
Qed.

(** One bit of the flags. *)
Lemma land_pow2 v (k : Z) :
  0 <= k -> Z.land v (2 ^ k) = if Z.testbit v k then 2 ^ k else 0.
Proof.
  intros Hk. apply Z.bits_inj'. intros n Hn.
  rewrite Z.land_spec, Z.pow2_bits_eqb by done.
  destruct (Z.eqb_spec k n) as [->|Hne].
  - destruct (Z.testbit v n); [|by rewrite Z.bits_0].
    rewrite Z.pow2_bits_eqb by done. by rewrite Z.eqb_refl.
  - rewrite andb_false_r. destruct (Z.testbit v k); [|by rewrite Z.bits_0].
    rewrite Z.pow2_bits_eqb by done. by apply Z.eqb_neq in Hne as ->.
Qed.

Lemma has_flag_bit v (k : Z) :
  0 <= k -> FileViews.has_flag (2 ^ k) v = Z.testbit v k.
Proof.
  intros Hk. unfold FileViews.has_flag. rewrite (land_pow2 v k Hk).
  destruct (Z.testbit v k); [|reflexivity].
  assert (0 < 2 ^ k) by (by apply Z.pow_pos_nonneg).
  apply negb_true_iff, Z.eqb_neq. lia.
Qed.

Lemma has_flag_lor mask x y :
  FileViews.has_flag mask (Z.lor x y)
  = FileViews.has_flag mask x || FileViews.has_flag mask y.
Proof.
  unfold FileViews.has_flag. rewrite Z.land_lor_distr_l.
  destruct (Z.eqb_spec (Z.land x mask) 0) as [->|Hx];
    destruct (Z.eqb_spec (Z.land y mask) 0) as [->|Hy]; cbn.
  - reflexivity.
  - rewrite Z.lor_0_l. by apply negb_true_iff, Z.eqb_neq.
  - rewrite Z.lor_0_r. by apply negb_true_iff, Z.eqb_neq.
  - apply negb_true_iff, Z.eqb_neq. intros H.
    apply Z.lor_eq_0_iff in H as [? _]. done.
Qed.

(** The test of [chain_input_files], bit by bit. *)
Lemma chain_input_bits v :
  (Z.land v FileFlags.in_ch_mask =? FileFlags.input_mask)
  = FileViews.has_flag FileFlags.input_mask v
    && negb (FileViews.has_flag FileFlags.output_mask v)
    && negb (FileViews.has_flag FileFlags.rm_mask v)
    && negb (FileViews.has_flag FileFlags.internal_mask v).
Proof.
  unfold FileFlags.in_ch_mask. rewrite !Z.land_lor_distr_r.
  change FileFlags.input_mask with (2 ^ 0).
  change FileFlags.output_mask with (2 ^ 1).
  change FileFlags.rm_mask with (2 ^ 2).
  change FileFlags.internal_mask with (2 ^ 4).
  rewrite !has_flag_bit, !land_pow2 by lia.
  by destruct (Z.testbit v 0), (Z.testbit v 1), (Z.testbit v 2),
    (Z.testbit v 4).
Qed.

(** The test of [chain_output_files], bit by bit. *)
Lemma chain_output_bits v :
  (Z.land v FileFlags.out_ch_mask =? FileFlags.output_mask)
  = FileViews.has_flag FileFlags.output_mask v
    && negb (FileViews.has_flag FileFlags.rm_mask v)
    && negb (FileViews.has_flag FileFlags.internal_mask v).
Proof.
  unfold FileFlags.out_ch_mask. rewrite !Z.land_lor_distr_r.
  change FileFlags.output_mask with (2 ^ 1).
  change FileFlags.rm_mask with (2 ^ 2).
  change FileFlags.internal_mask with (2 ^ 4).
  rewrite !has_flag_bit, !land_pow2 by lia.
  by destruct (Z.testbit v 1), (Z.testbit v 2), (Z.testbit v 4).
Qed.

End Views.

Lemma chain_input_test (d : gmap string Z) (p : string) :
  p ∈ FileViews.chain_input_files d
  <-> p ∈ FileViews.input_files d
      /\ (p ∉ FileViews.output_files d)
      /\ (p ∉ FileViews.temp_files d)
      /\ (p ∉ FileViews.internal_files d).
Proof.
  unfold FileViews.chain_input_files, FileViews.input_files,
    FileViews.output_files, FileViews.temp_files, FileViews.internal_files.
  rewrite collect_map, !view_flag. unfold flags_at.
  destruct (d !! p) as [v|]; cbn.
  - split.
    + intros (v' & [= <-] & Hv). rewrite chain_input_bits in Hv.
      repeat (apply andb_true_iff in Hv as [Hv ?]).
      repeat split; try done; by apply not_true_iff_false, negb_true_iff.
    + intros (H0 & H1 & H2 & H4). exists v. split; [done|].
      rewrite chain_input_bits, H0.
      apply not_true_iff_false in H1, H2, H4. by rewrite H1, H2, H4.
  - split; [by intros (? & ? & _) | by intros [? _]].
Qed.

(** X1. The chain inputs are the inputs that are not also an output, a
    temporary or an internal file. *)
Theorem chain_input_files_spec (d : gmap string Z) (p : string) :
  p ∈ FileViews.chain_input_files d
  <-> p ∈ FileViews.input_files d
      /\ (p ∉ FileViews.output_files d)
      /\ (p ∉ FileViews.temp_files d)
      /\ (p ∉ FileViews.internal_files d).
Proof.
  unfold FileViews.chain_input_files, FileViews.input_files,
    FileViews.output_files, FileViews.temp_files, FileViews.internal_files.
  rewrite collect_map, !view_flag. unfold flags_at.
  destruct (d !! p) as [v|]; cbn.
  - split.
    + intros (v' & [= <-] & Hv). rewrite chain_input_bits in Hv.
      repeat (apply andb_true_iff in Hv as [Hv ?]).
      repeat split; try done; by apply not_true_iff_false, negb_true_iff.
    + intros (H0 & H1 & H2 & H4). exists v. split; [done|].
      rewrite chain_input_bits, H0.
      apply not_true_iff_false in H1, H2, H4. by rewrite H1, H2, H4.
  - split; [by intros (? & ? & _) | by intros [? _]].
Qed.

Lemma chain_output_test (d : gmap string Z) (p : string) :
  p ∈ FileViews.chain_output_files d
  <-> p ∈ FileViews.output_files d
      /\ (p ∉ FileViews.temp_files d)
      /\ (p ∉ FileViews.internal_files d).
Proof.
  unfold FileViews.chain_output_files, FileViews.output_files,
    FileViews.temp_files, FileViews.internal_files.
  rewrite collect_map, !view_flag. unfold flags_at.
  destruct (d !! p) as [v|]; cbn.
  - split.
    + intros (v' & [= <-] & Hv). rewrite chain_output_bits in Hv.
      repeat (apply andb_true_iff in Hv as [Hv ?]).
      repeat split; try done; by apply not_true_iff_false, negb_true_iff.
    + intros (H1 & H2 & H4). exists v. split; [done|].
      rewrite chain_output_bits, H1.
      apply not_true_iff_false in H2, H4. by rewrite H2, H4.
  - split; [by intros (? & ? & _) | by intros [? _]].
Qed.

(** X2. The chain outputs are the outputs that are not also a temporary or
    an internal file. *)
Theorem chain_output_files_spec (d : gmap string Z) (p : string) :
  p ∈ FileViews.chain_output_files d
  <-> p ∈ FileViews.output_files d
      /\ (p ∉ FileViews.temp_files d)
      /\ (p ∉ FileViews.internal_files d).
Proof.
  unfold FileViews.chain_output_files, FileViews.output_files,
    FileViews.temp_files, FileViews.internal_files.
  rewrite collect_map, !view_flag. unfold flags_at.
  destruct (d !! p) as [v|]; cbn.
  - split.
    + intros (v' & [= <-] & Hv). rewrite chain_output_bits in Hv.
      repeat (apply andb_true_iff in Hv as [Hv ?]).
      repeat split; try done; by apply not_true_iff_false, negb_true_iff.
    + intros (H1 & H2 & H4). exists v. split; [done|].
      rewrite chain_output_bits, H1.
      apply not_true_iff_false in H2, H4. by rewrite H2, H4.
  - split; [by intros (? & ? & _) | by intros [? _]].
Qed.

(** X3. No path is a chain input and a chain output of one classifier. *)
Theorem chain_input_output_disjoint (d : gmap string Z) (p : string) :
  p ∈ FileViews.chain_input_files d -> p ∉ FileViews.chain_output_files d.
Proof.
  intros Hin Hout. apply chain_input_test in Hin as (_ & Hno & _).
  apply chain_output_test in Hout as (Hyes & _). done.
Qed.

Lemma chain_input_output_disjoint_witness :
  "a.fits" ∉ FileViews.chain_output_files {["a.fits" := FileFlags.input_mask]}.
Proof.
  apply (chain_input_output_disjoint {["a.fits" := FileFlags.input_mask]}
           "a.fits").
  apply collect_map. exists FileFlags.input_mask. by split.
Defined.

Lemma view_update (mask : Z) (a b : gmap string Z) (p : string) :
  p ∈ FileViews.collect (FileViews.has_flag mask)
        (map_to_list (FileDict.update a b))
  <-> p ∈ FileViews.collect (FileViews.has_flag mask) (map_to_list a)
      \/ p ∈ FileViews.collect (FileViews.has_flag mask) (map_to_list b).
Proof.
  rewrite !view_flag. unfold flags_at. rewrite update_lookup.
  destruct (a !! p) as [x|], (b !! p) as [y|]; cbn;
    rewrite ?has_flag_lor, ?has_flag_0, ?orb_true_iff;
    intuition discriminate.
Qed.

Lemma flag_views_of_update (a b : gmap string Z) (p : string) :
  (p ∈ FileViews.input_files (FileDict.update a b)
   <-> p ∈ FileViews.input_files a \/ p ∈ FileViews.input_files b)
  /\ (p ∈ FileViews.output_files (FileDict.update a b)
      <-> p ∈ FileViews.output_files a \/ p ∈ FileViews.output_files b)
  /\ (p ∈ FileViews.internal_files (FileDict.update a b)
      <-> p ∈ FileViews.internal_files a \/ p ∈ FileViews.internal_files b)
  /\ (p ∈ FileViews.temp_files (FileDict.update a b)
      <-> p ∈ FileViews.temp_files a \/ p ∈ FileViews.temp_files b)
  /\ (p ∈ FileViews.gzip_files (FileDict.update a b)
      <-> p ∈ FileViews.gzip_files a \/ p ∈ FileViews.gzip_files b).
Proof. repeat split; apply view_update. Qed.

(** X4. After a merge each of the five flag views holds the paths that it
    holds for one of the two classifiers. *)
Theorem views_of_update (a b : gmap string Z) (p : string) :
  (p ∈ FileViews.input_files (FileDict.update a b)
   <-> p ∈ FileViews.input_files a \/ p ∈ FileViews.input_files b)
  /\ (p ∈ FileViews.output_files (FileDict.update a b)
      <-> p ∈ FileViews.output_files a \/ p ∈ FileViews.output_files b)
  /\ (p ∈ FileViews.internal_files (FileDict.update a b)
      <-> p ∈ FileViews.internal_files a \/ p ∈ FileViews.internal_files b)
  /\ (p ∈ FileViews.temp_files (FileDict.update a b)
      <-> p ∈ FileViews.temp_files a \/ p ∈ FileViews.temp_files b)
  /\ (p ∈ FileViews.gzip_files (FileDict.update a b)
      <-> p ∈ FileViews.gzip_files a \/ p ∈ FileViews.gzip_files b).
Proof. repeat split; apply view_update. Qed.

(** X5. A path that one classifier has as an output and the other as an
    input is no chain input of their merge, and it is a chain output of the
    merge when neither has it as a temporary or internal file. *)
Theorem produced_and_consumed (a b : gmap string Z) (p : string) :
  p ∈ FileViews.output_files a ->
  p ∈ FileViews.input_files b ->
  (p ∉ FileViews.chain_input_files (FileDict.update a b))
  /\ (p ∈ FileViews.chain_output_files (FileDict.update a b)
      <-> (p ∉ FileViews.temp_files a) /\ (p ∉ FileViews.temp_files b)
          /\ (p ∉ FileViews.internal_files a)
          /\ p ∉ FileViews.internal_files b).
Proof.
  intros Hout Hin.
  destruct (flag_views_of_update a b p) as (_ & Ho & Hi & Ht & _). split.
  - rewrite chain_input_test, Ho. intros (_ & Hno & _).
    apply Hno. by left.
  - rewrite chain_output_test, Ho, Hi, Ht. split.
    + intros (_ & Hnt & Hni).
      repeat split; intros H; (apply Hnt + apply Hni); by (left + right).
    + intros (Hta & Htb & Hia & Hib).
      split; [by left|]. split; by intros [H|H].
Qed.

Lemma produced_and_consumed_witness :
  "b.fits" ∉ FileViews.chain_input_files
               (FileDict.update {["b.fits" := FileFlags.output_mask]}
                                {["b.fits" := FileFlags.input_mask]}).
Proof.
  assert ("b.fits" ∈ FileViews.output_files
                       {["b.fits" := FileFlags.output_mask]}) as Hout.
  { apply view_flag. reflexivity. }
  assert ("b.fits" ∈ FileViews.input_files
                       {["b.fits" := FileFlags.input_mask]}) as Hin.
  { apply view_flag. reflexivity. }
  exact (proj1 (produced_and_consumed _ _ _ Hout Hin)).
Defined.

(** ** [get_unique_match] *)

Section Unique_match.

Context {A : Type} `{EqDecision A} (value : A).

Lemma matches_cons (x : A) (column : list A) :
  matches value (x :: column)
  = if bool_decide (x = value) then S (matches value column)
    else matches value column.
Proof. unfold matches. cbn. by destruct (bool_decide (x = value)). Qed.

Lemma no_match (column : list A) :
  matches value column = O -> forall j, column !! j <> Some value.
Proof.
  induction column as [|x column IH]; intros Hm j; [by destruct j|].
  rewrite matches_cons in Hm. case_bool_decide as Hx; [done|].
  destruct j as [|j]; cbn; [congruence | by apply IH].
Qed.

Lemma first_match (column : list A) :
  (1 <= matches value column)%nat ->
  existsb id (mask_of value column) = true
  /\ column !! argmax (mask_of value column) = Some value.
Proof.
  induction column as [|x column IH]; intros Hm; [cbn in Hm; lia|].
  rewrite matches_cons in Hm. unfold mask_of.
  cbn [fmap list_fmap argmax existsb].
  case_bool_decide as Hx; cbn [id orb].
  - subst x. by split.
  - destruct (IH Hm) as [He Ha]. unfold mask_of in He, Ha.
    rewrite He. by split.
Qed.

Lemma one_match (column : list A) :
  matches value column = 1%nat ->
  forall j, column !! j = Some value -> j = argmax (mask_of value column).
Proof.
  induction column as [|x column IH]; intros Hm j Hj; [by destruct j|].
  rewrite matches_cons in Hm. unfold mask_of; cbn [fmap list_fmap argmax].
  case_bool_decide as Hx.
  - destruct j as [|j]; [done|]. cbn in Hj.
    exfalso. apply (no_match column) with j; [lia | done].
  - destruct j as [|j]; cbn in Hj; [congruence|].
    destruct (first_match column) as [He _]; [lia|]. unfold mask_of in He.
    rewrite He. f_equal. by apply IH.
Qed.

Lemma two_matches (column : list A) :
  (2 <= matches value column)%nat ->
  exists i j, i <> j /\ column !! i = Some value /\ column !! j = Some value.
Proof.
  induction column as [|x column IH]; intros Hm; [cbn in Hm; lia|].
  rewrite matches_cons in Hm. case_bool_decide as Hx.
  - subst x. destruct (first_match column) as [_ Ha]; [lia|].
    exists O, (S (argmax (mask_of value column))). by repeat split.
  - destruct (IH Hm) as (i & j & Hij & Hi & Hj).
    exists (S i), (S j). repeat split; [congruence | done | done].
Qed.

(** X6. [get_unique_match] returns the index of the one cell that equals
    the value; it raises [KeyError] when no cell or more than one cell
    equals it. *)
Theorem get_unique_match_spec (column : list A) :
  match get_unique_match column value with
  | Return i =>
      column !! i = Some value
      /\ forall j, column !! j = Some value -> j = i
  | Raise e =>
      e = KeyError
      /\ ((forall j, column !! j <> Some value)
          \/ exists i j, i <> j /\ column !! i = Some value
                         /\ column !! j = Some value)
  end.
Proof.
  unfold get_unique_match.
  change ((fun cell => bool_decide (cell = value)) <$> column)
    with (mask_of value column).
  change (length (List.filter id (mask_of value column)))
    with (matches value column).
  case_bool_decide as Hm.
  - split; [apply first_match; lia | by apply one_match].
  - split; [reflexivity|].
    destruct (matches value column) as [|[|n]] eqn:Hn; [|done|].
    + left. by apply no_match.
    + right. apply two_matches. lia.
Qed.

End Unique_match.

(** ** Handles and rows *)




(** ** The entries of a classifier *)

Section Latch.

Context (args : gmap string (option string)).

Implicit Types (d : gmap string Z) (p : string) (v val : Z).

Lemma tokens_sound (tokens : list string) val d p v :
  foldl (fun d token => <[Py.replace token ".gz" "" := val]> d) d tokens !! p
  = Some v ->
  (exists token, token ∈ tokens /\ p = Py.replace token ".gz" "" /\ v = val)
  \/ d !! p = Some v.
Proof.
  revert d. induction tokens as [|t tokens IH]; intros d; cbn [foldl];
    [by right|].
  intros [(token & Hin & Hp & Hv)|Hd]%IH.
  - left. exists token. split; [by apply elem_of_cons; right | done].
  - destruct (decide (Py.replace t ".gz" "" = p)) as [<-|Hne].
    + rewrite lookup_insert_eq in Hd. injection Hd as <-. left. exists t.
      split; [by apply elem_of_cons; left | done].
    + rewrite lookup_insert_ne in Hd by done. by right.
Qed.

Lemma tokens_kept (tokens : list string) val d p :
  is_Some (d !! p) ->
  is_Some (foldl (fun d token => <[Py.replace token ".gz" "" := val]> d)
                 d tokens !! p).
Proof.
  revert d. induction tokens as [|t tokens IH]; intros d Hd; cbn [foldl];
    [done|].
  apply IH. destruct (decide (Py.replace t ".gz" "" = p)) as [<-|Hne].
  - by rewrite lookup_insert_eq.
  - by rewrite lookup_insert_ne.
Qed.

Lemma tokens_complete (tokens : list string) val d token :
  token ∈ tokens ->
  is_Some (foldl (fun d token => <[Py.replace token ".gz" "" := val]> d)
                 d tokens !! Py.replace token ".gz" "").
Proof.
  revert d. induction tokens as [|t tokens IH]; intros d Hin; cbn [foldl];
    [by apply elem_of_nil in Hin|].
  apply elem_of_cons in Hin as [->|Hin]; [|by apply IH].
  apply tokens_kept. by rewrite lookup_insert_eq.
Qed.

Lemma latch_item_sound d (item : string * Z) p v :
  FileDict.latch_item args d item !! p = Some v ->
  (names args item p /\ v = snd item) \/ d !! p = Some v.
Proof.
  destruct item as [k val]. unfold FileDict.latch_item, names. cbn [fst snd].
  destruct (args !! k) as [[file_path|]|]; [|by right..].
  destruct (String.eqb (Py.take 4 k) "args").
  - intros [(token & Hin & Hp & Hv)|Hd]%tokens_sound; [|by right].
    left. split; [|done]. exists file_path. split; [done|]. by exists token.
  - destruct (decide (Py.replace file_path ".gz" "" = p)) as [<-|Hne].
    + rewrite lookup_insert_eq. intros [= <-]. left. split; [|done].
      by exists file_path.
    + rewrite lookup_insert_ne by done. by right.
Qed.

Lemma latch_item_kept d (item : string * Z) p :
  is_Some (d !! p) -> is_Some (FileDict.latch_item args d item !! p).
Proof.
  destruct item as [k val]. unfold FileDict.latch_item. intros Hd.
  destruct (args !! k) as [[file_path|]|]; [|done..].
  destruct (String.eqb (Py.take 4 k) "args"); [by apply tokens_kept|].
  destruct (decide (Py.replace file_path ".gz" "" = p)) as [<-|Hne].
  - by rewrite lookup_insert_eq.
  - by rewrite lookup_insert_ne.
Qed.

Lemma latch_item_complete d (item : string * Z) p :
  names args item p -> is_Some (FileDict.latch_item args d item !! p).
Proof.
  destruct item as [k val]. unfold FileDict.latch_item, names. cbn [fst snd].
  intros (file_path & -> & Hp).
  destruct (String.eqb (Py.take 4 k) "args").
  - destruct Hp as (token & Hin & ->). by apply tokens_complete.
  - subst p. by rewrite lookup_insert_eq.
Qed.

Lemma latch_sound (items : list (string * Z)) d p v :
  foldl (FileDict.latch_item args) d items !! p = Some v ->
  (exists item, item ∈ items /\ names args item p /\ v = snd item)
  \/ d !! p = Some v.
Proof.
  revert d. induction items as [|item items IH]; intros d; cbn [foldl];
    [by right|].
  intros [(item' & Hin & Hn)|[[Hn Hv]|Hd]%latch_item_sound]%IH.
  - left. exists item'. split; [by apply elem_of_cons; right | done].
  - left. exists item. split; [by apply elem_of_cons; left | done].
  - by right.
Qed.

Lemma latch_kept (items : list (string * Z)) d p :
  is_Some (d !! p) -> is_Some (foldl (FileDict.latch_item args) d items !! p).
Proof.
  revert d. induction items as [|item items IH]; intros d Hd; cbn [foldl];
    [done|].
  by apply IH, latch_item_kept.
Qed.

Lemma latch_complete (items : list (string * Z)) d (item : string * Z) p :
  item ∈ items -> names args item p ->
  is_Some (foldl (FileDict.latch_item args) d items !! p).
Proof.
  revert d. induction items as [|item' items IH]; intros d Hin Hn;
    cbn [foldl]; [by apply elem_of_nil in Hin|].
  apply elem_of_cons in Hin as [->|Hin]; [|by apply IH].
  by apply latch_kept, latch_item_complete.
Qed.

End Latch.

(** X9. The flags map of [latch_file_info] has an entry for a path exactly
    when an item of the schema names it (its argument is there, is not
    [None], and the path is its normalized value or one of its normalized
    tokens), and the flags of the entry are those of such an item. *)
Theorem latch_entries (file_args : list (string * Z))
    (args : gmap string (option string)) (p : string) :
  (is_Some (FileDict.latch_file_info file_args args !! p)
   <-> exists item, item ∈ file_args /\ names args item p)
  /\ (forall v : Z,
        FileDict.latch_file_info file_args args !! p = Some v ->
        exists item, item ∈ file_args /\ names args item p /\ v = snd item).
Proof.
  assert (forall v : Z,
            FileDict.latch_file_info file_args args !! p = Some v ->
            exists item, item ∈ file_args /\ names args item p
                         /\ v = snd item) as Hsound.
  { intros v [H|H]%latch_sound; [done|]. by rewrite lookup_empty in H. }
  split; [|exact Hsound]. split.
  - intros [v (item & Hin & Hn & _)%Hsound]. by exists item.
  - intros (item & Hin & Hn). by apply latch_complete with item.
Qed.

Lemma latch_entries_witness :
  exists item,
    item ∈ [("infile", FileFlags.input_mask)]
    /\ names (<["infile" := Some "a.fits.gz"]> ∅) item "a.fits"
    /\ FileFlags.input_mask = snd item.
Proof.
  apply (proj2 (latch_entries [("infile", FileFlags.input_mask)]
                  (<["infile" := Some "a.fits.gz"]> ∅) "a.fits")).
  vm_compute. reflexivity.
Defined.

(** ** Updates *)

Section Update_more.

Context (fs : FileSystem).

Lemma table_getitem_run (i : Z) w :
  Archive.table_getitem i w
  = let n := Archive.table_len (archive w) in
    let j := if i <? 0 then i + n else i in
    if (j <? 0) || (n <=? j) then (Raise IndexError, w)
    else match _table (archive w) !! Z.to_nat j with
         | Some row => (Return row, w)
         | None => (Raise IndexError, w)
         end.
Proof.
  unfold Archive.table_getitem, bind, get_archive. cbn.
  destruct ((_ <? 0) || _); [reflexivity|].
  by destruct (_table (archive w) !! _).
Qed.

(** A row number that counts from [0] up to the length of the table. *)
Lemma table_getitem_row (i : nat) (row : Row) w :
  _table (archive w) !! i = Some row ->
  Archive.table_getitem (Z.of_nat i) w = (Return row, w).
Proof.
  intros Hrow. rewrite table_getitem_run. cbn zeta.
  pose proof (lookup_lt_Some _ _ _ Hrow) as Hlt. unfold Archive.table_len.
  assert ((Z.of_nat i <? 0) = false) as -> by lia.
  assert ((Z.of_nat i <? 0) || (Z.of_nat (length (_table (archive w)))
                                <=? Z.of_nat i) = false) as ->.
  { apply orb_false_iff. split; lia. }
  by rewrite Nat2Z.id, Hrow.
Qed.

(** [update_file] for a status that needs no file, up to the row. *)
Lemma update_file_unchecked_run filepath creator status h0 w :
  Archive.get_handle filepath w = (Return h0, w) ->
  status <> FileStatus.exists_ -> status <> FileStatus.superseded ->
  Archive.update_file fs filepath creator status w
  = match Archive.table_getitem (key h0 - 1)
            (with_handle w (local_of (archive w) filepath)
               (updated h0 creator 0 status)) with
    | (Return _, w') => (Return (updated h0 creator 0 status), w')
    | (Raise e, w') => (Raise e, w')
    end.
Proof.
  intros Hh Hex Hsu. unfold Archive.update_file.
  rewrite (bind_Return _ _ _ _ _ Hh).
  assert ((status =? FileStatus.exists_) || (status =? FileStatus.superseded)
          = false) as ->.
  { apply orb_false_iff. split; by apply Z.eqb_neq. }
  unfold ret at 1. unfold bind at 1. unfold bind at 1. rewrite set_members_run.
  unfold bind at 1. fold (updated h0 creator 0 status).
  fold (with_handle w (local_of (archive w) filepath)
          (updated h0 creator 0 status)).
  cbn [key updated].
  by destruct (Archive.table_getitem (key h0 - 1) _) as [[row|e] w'].
Qed.

End Update_more.

(** X10. [update_file] on a path that has no handle raises [KeyError] and
    leaves the world as it is, whatever the status and the file system. *)
Theorem update_file_untracked (fs : FileSystem) (w : World)
    (filepath : string) (creator status : Z) :
  Archive.get_handle filepath w = (Raise KeyError, w) ->
  Archive.update_file fs filepath creator status w = (Raise KeyError, w).
Proof.
  intros Hh. unfold Archive.update_file. by apply bind_Raise.
Qed.

Lemma update_file_untracked_witness :
  Archive.update_file no_files "a.fits" 1 FileStatus.expected (start "/data/")
  = (Raise KeyError, start "/data/").
Proof.
  apply (update_file_untracked no_files (start "/data/") "a.fits" 1
           FileStatus.expected).
  reflexivity.
Defined.

Lemma update_file_unchecked_row (fs : FileSystem) (w : World)
    (filepath : string) (creator status : Z) (h0 : FileHandle) (row : Row) :
  Archive.get_handle filepath w = (Return h0, w) ->
  status <> FileStatus.exists_ -> status <> FileStatus.superseded ->
  1 <= key h0 ->
  _table (archive w) !! Z.to_nat (key h0 - 1) = Some row ->
  exists (localpath : string),
    Archive._get_localpath filepath w = (Return localpath, w)
    /\ Archive.update_file fs filepath creator status w
       = (Return (updated h0 creator 0 status),
          with_handle w localpath (updated h0 creator 0 status)).
Proof.
  intros Hh Hex Hsu Hk Hrow. exists (local_of (archive w) filepath).
  split; [reflexivity|].
  rewrite (update_file_unchecked_run fs _ _ _ _ _ Hh Hex Hsu).
  replace (key h0 - 1) with (Z.of_nat (Z.to_nat (key h0 - 1))) by lia.
  by rewrite (table_getitem_row _ row).
Qed.

(** X11. For a handle whose key counts to a row of the table, [update_file]
    with a status other than [exists] and [superseded] returns the handle
    with the new creator and status and the timestamp [0], key, path and
    flags as they were; the cache holds it under the local path, and the
    table, the other cache entries and the output stay as they are. *)
Theorem update_file_unchecked (fs : FileSystem) (w : World)
    (filepath : string) (creator status : Z) (h0 : FileHandle) (row : Row) :
  Archive.get_handle filepath w = (Return h0, w) ->
  status <> FileStatus.exists_ -> status <> FileStatus.superseded ->
  1 <= key h0 ->
  _table (archive w) !! Z.to_nat (key h0 - 1) = Some row ->
  exists (localpath : string),
    Archive._get_localpath filepath w = (Return localpath, w)
    /\ Archive.update_file fs filepath creator status w
       = (Return (updated h0 creator 0 status),
          with_handle w localpath (updated h0 creator 0 status)).
Proof.
  intros Hh Hex Hsu Hk Hrow. exists (local_of (archive w) filepath).
  split; [reflexivity|].
  rewrite (update_file_unchecked_run fs _ _ _ _ _ Hh Hex Hsu).
  replace (key h0 - 1) with (Z.of_nat (Z.to_nat (key h0 - 1))) by lia.
  by rewrite (table_getitem_row _ row).
Qed.

Lemma update_file_unchecked_witness :
  exists (localpath : string),
    Archive._get_localpath "a.fits"
      (run [(no_files, Register "a.fits" 1 FileStatus.expected 0)]
           (start "/data/"))
    = (Return localpath,
       run [(no_files, Register "a.fits" 1 FileStatus.expected 0)]
           (start "/data/"))
    /\ Archive.update_file no_files "a.fits" 2 FileStatus.temp_removed
         (run [(no_files, Register "a.fits" 1 FileStatus.expected 0)]
              (start "/data/"))
       = (Return (updated {| key := 1; creator := 1; timestamp := 0;
                             status := FileStatus.expected; flags := 0;
                             path := "a.fits" |}
                    2 0 FileStatus.temp_removed),
          with_handle
            (run [(no_files, Register "a.fits" 1 FileStatus.expected 0)]
                 (start "/data/"))
            localpath
            (updated {| key := 1; creator := 1; timestamp := 0;
                        status := FileStatus.expected; flags := 0;
                        path := "a.fits" |}
               2 0 FileStatus.temp_removed)).
Proof.
  apply (update_file_unchecked no_files _ "a.fits" 2 FileStatus.temp_removed
           {| key := 1; creator := 1; timestamp := 0;
              status := FileStatus.expected; flags := 0; path := "a.fits" |}
           {| col_key := 1; col_path := "a.fits"; col_creator := 1;
              col_timestamp := 0; col_status := FileStatus.expected;
              col_flags := 0 |}).
  - vm_compute. reflexivity.
  - discriminate.
  - discriminate.
  - vm_compute. discriminate.
  - vm_compute. reflexivity.
Defined.

(** X12. When the key of the handle counts beyond the table, [update_file]
    with a status other than [exists] and [superseded] raises [IndexError]
    after the assignments: the cache already holds the new creator, status
    and timestamp. *)
Theorem update_file_key_beyond_table (fs : FileSystem) (w : World)
    (filepath : string) (creator status : Z) (h0 : FileHandle) :
  Archive.get_handle filepath w = (Return h0, w) ->
  status <> FileStatus.exists_ -> status <> FileStatus.superseded ->
  Archive.table_len (archive w) < key h0 ->
  exists (localpath : string),
    Archive._get_localpath filepath w = (Return localpath, w)
    /\ Archive.update_file fs filepath creator status w
       = (Raise IndexError,
          with_handle w localpath (updated h0 creator 0 status)).
Proof.
  intros Hh Hex Hsu Hk. exists (local_of (archive w) filepath).
  split; [reflexivity|].
  rewrite (update_file_unchecked_run fs _ _ _ _ _ Hh Hex Hsu).
  rewrite table_getitem_run. cbn zeta. unfold Archive.table_len in *.
  cbn [with_handle archive _table].
  assert ((key h0 - 1 <? 0) = false) as -> by lia.
  assert ((key h0 - 1 <? 0) || (Z.of_nat (length (_table (archive w)))
                               <=? key h0 - 1) = true) as ->.
  { apply orb_true_iff. right. lia. }
  reflexivity.
Qed.

(** ** Registrations *)





(** X15. The empty path cannot be registered with status [exists], and has
    no full path: both calls raise [IndexError] and leave the world as it
    is. *)
Theorem empty_path_IndexError (fs : FileSystem) (w : World)
    (creator flags : Z) :
  Archive.register_file fs "" creator FileStatus.exists_ flags w
  = (Raise IndexError, w)
  /\ Archive._get_fullpath "" w = (Raise IndexError, w).
Proof. split; [apply register_file_empty | reflexivity]. Qed.

(** ** Handles and their rows *)

Section Well_keyed.

Context (fs : FileSystem).

Lemma well_keyed_with_record w (h : FileHandle) (lines : list string) :
  key h = Archive.table_len (archive w) + 1 ->
  well_keyed (archive w) -> well_keyed (archive (with_record w h lines)).
Proof.
  intros Hk Hwk p h' Hh'. unfold with_record in Hh' |- *. cbn in Hh' |- *.
  unfold Archive.table_len in Hk.
  destruct (decide (path h = p)) as [<-|Hne].
  - rewrite lookup_insert_eq in Hh'. injection Hh' as <-.
    split; [reflexivity|]. split; [lia|]. exists (row_of h).
    split; [|by split]. rewrite Hk.
    replace (Z.to_nat (Z.of_nat (length (_table (archive w))) + 1 - 1))
      with (length (_table (archive w))) by lia.
    by apply list_lookup_middle.
  - rewrite lookup_insert_ne in Hh' by done.
    destruct (Hwk p h' Hh') as (Hp & Hk' & row & Hrow & Hrp & Hrk).
    split; [done|]. split; [done|]. exists row. split; [|by split].
    by apply lookup_app_l_Some.
Qed.

Lemma well_keyed_register filepath creator status flags w :
  well_keyed (archive w) ->
  well_keyed (archive (snd (Archive.register_file fs filepath creator status
                              flags w))).
Proof.
  intros Hwk. destruct (decide (filepath = "")) as [->|Hne].
  - destruct (decide (status = FileStatus.exists_)) as [->|Hst].
    + by rewrite register_file_empty.
    + rewrite register_file_run by (by right).
      by apply well_keyed_with_record.
  - rewrite register_file_run by (by left). by apply well_keyed_with_record.
Qed.

Lemma well_keyed_with_handle w (localpath : string) (h0 h : FileHandle) :
  _cache (archive w) !! localpath = Some h0 ->
  key h = key h0 -> path h = path h0 ->
  well_keyed (archive w) -> well_keyed (archive (with_handle w localpath h)).
Proof.
  intros Hh0 Hk Hp Hwk p h' Hh'. unfold with_handle in Hh' |- *.
  cbn in Hh' |- *.
  destruct (decide (localpath = p)) as [<-|Hne].
  - rewrite lookup_insert_eq in Hh'. injection Hh' as <-.
    rewrite Hk, Hp. by apply Hwk.
  - rewrite lookup_insert_ne in Hh' by done. by apply Hwk.
Qed.

(** The world that a call of [update_file] leaves. *)
Lemma update_file_world filepath creator status w :
  snd (Archive.update_file fs filepath creator status w)
  = match _cache (archive w) !! local_of (archive w) filepath with
    | None => w
    | Some h0 =>
        if (status =? FileStatus.exists_) || (status =? FileStatus.superseded)
        then w
        else with_handle w (local_of (archive w) filepath)
               (updated h0 creator 0 status)
    end.
Proof.
  unfold Archive.update_file. unfold bind at 1. rewrite get_handle_run.
  destruct (_cache (archive w) !! local_of (archive w) filepath) as [h0|];
    [|reflexivity].
  unfold bind at 1.
  destruct ((status =? FileStatus.exists_) || (status =? FileStatus.superseded)).
  - unfold bind at 1. by rewrite fullpath_member_run.
  - unfold ret at 1. unfold bind at 1. rewrite set_members_run.
    unfold bind at 1.
    match goal with
    | |- context [Archive.table_getitem ?i ?w'] =>
        pose proof (table_getitem_world i w') as Hw;
        destruct (Archive.table_getitem i w') as [[row|e] w'']
    end; cbn in Hw; subst; reflexivity.
Qed.

Lemma well_keyed_update filepath creator status w :
  well_keyed (archive w) ->
  well_keyed (archive (snd (Archive.update_file fs filepath creator status w))).
Proof.
  intros Hwk. rewrite update_file_world.
  destruct (_cache (archive w) !! local_of (archive w) filepath) as [h0|]
    eqn:Hh0; [|done].
  destruct ((status =? FileStatus.exists_) || (status =? FileStatus.superseded));
    [done|].
  by apply (well_keyed_with_handle _ _ h0).
Qed.

Lemma well_keyed_loop file_list creator status file_dict acc w :
  well_keyed (archive w) ->
  well_keyed (archive (snd (Archive.get_file_ids_loop fs file_list creator
                              status file_dict acc w))).
Proof.
  revert creator acc w.
  induction file_list as [|fname rest IH]; intros creator acc w Hwk; [done|].
  rewrite get_file_ids_loop_cons.
  destruct (flags_of file_dict fname) as [v|]; [|done].
  destruct (_cache (archive w) !! local_of (archive w) fname) as [h|];
    [by apply IH|].
  pose proof (well_keyed_register fname (default (-1) creator) status v w Hwk)
    as Hreg.
  destruct (Archive.register_file fs fname (default (-1) creator) status v w)
    as [[h|e] w']; cbn in Hreg; [by apply IH | done].
Qed.

End Well_keyed.

Lemma well_keyed_after (w : World) (c : FileSystem * call) :
  well_keyed (archive w) -> well_keyed (archive (after w c)).
Proof.
  destruct c as [fs [filepath creator status flags
                    | filepath creator status
                    | file_list creator status file_dict]]; cbn [after].
  - apply well_keyed_register.
  - apply well_keyed_update.
  - apply well_keyed_loop.
Qed.

Lemma well_keyed_run (calls : list (FileSystem * call)) (w : World) :
  well_keyed (archive w) -> well_keyed (archive (run calls w)).
Proof.
  revert w. induction calls as [|c calls IH]; intros w Hwk; [done|].
  by apply IH, well_keyed_after.
Qed.

Lemma well_keyed_start (base_path : string) :
  well_keyed (archive (start base_path)).
Proof. intros p h Hh. cbn in Hh. by rewrite lookup_empty in Hh. Qed.



(** X17. In an archive that started empty, [update_file] on a tracked path
    with a status other than [exists] and [superseded] returns: the handle
    comes back with the new creator and status, the timestamp [0] and its
    key, path and flags, and the cache holds it. *)
Theorem update_file_returns (fs : FileSystem)
    (calls : list (FileSystem * call)) (base_path filepath : string)
    (creator status : Z) (h0 : FileHandle) :
  Archive.get_handle filepath (run calls (start base_path))
  = (Return h0, run calls (start base_path)) ->
  status <> FileStatus.exists_ -> status <> FileStatus.superseded ->
  exists (w' : World),
    Archive.update_file fs filepath creator status
      (run calls (start base_path))
    = (Return (updated h0 creator 0 status), w')
    /\ Archive.get_handle filepath w'
       = (Return (updated h0 creator 0 status), w')
    /\ _table (archive w') = _table (archive (run calls (start base_path))).
Proof.
  set (w := run calls (start base_path)). intros Hh Hex Hsu.
  assert (_cache (archive w) !! local_of (archive w) filepath = Some h0)
    as Hh0.
  { rewrite get_handle_run in Hh.
    destruct (_cache (archive w) !! local_of (archive w) filepath);
      by inversion Hh. }
  destruct (well_keyed_run calls (start base_path)
              (well_keyed_start base_path) _ _ Hh0)
    as (_ & Hk & row & Hrow & _).
  destruct (update_file_unchecked_row fs w filepath creator status h0 row
              Hh Hex Hsu Hk Hrow) as (localpath & Hl & Hrun).
  rewrite _get_localpath_run in Hl. injection Hl as <-.
  eexists. split; [exact Hrun|]. split; [|reflexivity].
  rewrite get_handle_run. unfold with_handle, local_of. cbn.
  by rewrite lookup_insert_eq.
Qed.

Lemma update_file_returns_witness :
  exists (w' : World),
    Archive.update_file no_files "a.fits" 2 FileStatus.temp_removed
      (run [(no_files, Register "a.fits" 1 FileStatus.expected 0)]
           (start "/data/"))
    = (Return (updated {| key := 1; creator := 1; timestamp := 0;
                          status := FileStatus.expected; flags := 0;
                          path := "a.fits" |}
                 2 0 FileStatus.temp_removed), w')
    /\ Archive.get_handle "a.fits" w'
       = (Return (updated {| key := 1; creator := 1; timestamp := 0;
                             status := FileStatus.expected; flags := 0;
                             path := "a.fits" |}
                    2 0 FileStatus.temp_removed), w')
    /\ _table (archive w')
       = _table (archive (run [(no_files,
                                Register "a.fits" 1 FileStatus.expected 0)]
                              (start "/data/"))).
Proof.
  apply (update_file_returns no_files
           [(no_files, Register "a.fits" 1 FileStatus.expected 0)]
           "/data/" "a.fits" 2 FileStatus.temp_removed).
  - vm_compute. reflexivity.
  - discriminate.
  - discriminate.
Defined.

(** ** Resolving lists of paths *)

Section Resolve_lists.

Context (fs : FileSystem).

Lemma resolves_lookup w p k :
  resolves w p k
  <-> exists h, _cache (archive w) !! local_of (archive w) p = Some h
                /\ key h = k.
Proof.
  unfold resolves. split; intros (h & Hh & Hk); exists h; (split; [|done]).
  - rewrite get_handle_run in Hh.
    destruct (_cache (archive w) !! local_of (archive w) p); by inversion Hh.
  - by rewrite get_handle_run, Hh.
Qed.


(** The loop over paths that all have a handle only reads. *)
Lemma get_file_ids_loop_tracked file_list ks creator status file_dict acc w :
  Forall2 (resolves w) file_list ks ->
  Forall (fun p => is_Some (flags_of file_dict p)) file_list ->
  Archive.get_file_ids_loop fs file_list creator status file_dict acc w
  = (Return (acc ++ ks), w).
Proof.
  intros Hres. revert acc.
  induction Hres as [|p k file_list ks Hp Hres IH]; intros acc Hfd.
  - cbn. by rewrite app_nil_r.
  - apply Forall_cons in Hfd as [[v Hv] Hfd].
    apply resolves_lookup in Hp as (h & Hh & <-).
    rewrite get_file_ids_loop_cons, Hv, Hh, (IH _ Hfd).
    by rewrite <- app_assoc.
Qed.



End Resolve_lists.

(** X18. When every path of the list has a handle (and flags in the
    classifier, if one is given), [get_file_ids] returns the keys of the
    handles and leaves the world as it is, whatever creator, status and
    file system. *)
Theorem get_file_ids_tracked (fs : FileSystem) (w : World)
    (file_list : list string) (ks : list Z) (creator : option Z) (status : Z)
    (file_dict : option (gmap string Z)) :
  Forall2 (resolves w) file_list ks ->
  (forall d, file_dict = Some d -> Forall (fun p => is_Some (d !! p)) file_list) ->
  Archive.get_file_ids fs file_list creator status file_dict w
  = (Return ks, w).
Proof.
  intros Hres Hfd. unfold Archive.get_file_ids.
  rewrite (get_file_ids_loop_tracked fs file_list ks); [done|done|].
  destruct file_dict as [d|]; [by apply Hfd|].
  apply Forall_forall. intros p _. by eexists.
Qed.

Lemma get_file_ids_tracked_witness :
  Archive.get_file_ids no_files ["a.fits"; "a.fits"] None FileStatus.exists_
    None
    (run [(no_files, Register "a.fits" 1 FileStatus.expected 0)]
         (start "/data/"))
  = (Return [1; 1],
     run [(no_files, Register "a.fits" 1 FileStatus.expected 0)]
         (start "/data/")).
Proof.
  apply (get_file_ids_tracked no_files _ ["a.fits"; "a.fits"] [1; 1] None
           FileStatus.exists_ None).
  - repeat constructor;
      (eexists; split; [vm_compute; reflexivity | reflexivity]).
  - discriminate.
Defined.






(** ** From keys back to paths *)

Section Paths_of_keys.

(** Reading the rows of keys that count to rows of the table. *)
Lemma take_rows_run (ids : list Z) (rows : list Row) w :
  Forall2 (fun k row => 1 <= k
                        /\ _table (archive w) !! Z.to_nat (k - 1) = Some row)
          ids rows ->
  take_rows ((fun k => k - 1) <$> ids) w = (Return rows, w).
Proof.
  induction 1 as [|k row ids rows [Hk Hrow] _ IH]; [reflexivity|].
  cbn [fmap list_fmap take_rows].
  replace (k - 1) with (Z.of_nat (Z.to_nat (k - 1))) at 1 by lia.
  rewrite (bind_Return _ _ _ _ _ (table_getitem_row _ _ _ Hrow)).
  by rewrite (bind_Return _ _ _ _ _ IH).
Qed.


End Paths_of_keys.


(** X21. For keys that count to rows of the table, [get_file_paths] returns
    the paths of those rows in the order of the keys and leaves the world
    as it is; for [None] it returns the empty list. *)
Theorem get_file_paths_of_keys (w : World) (ids : list Z) (rows : list Row) :
  Forall2 (fun k row => 1 <= k
                        /\ _table (archive w) !! Z.to_nat (k - 1) = Some row)
          ids rows ->
  get_file_paths (Some ids) w = (Return (col_path <$> rows), w)
  /\ get_file_paths None w = (Return [], w).
Proof.
  intros Hrows. split; [|reflexivity]. unfold get_file_paths.
  by rewrite (bind_Return _ _ _ _ _ (take_rows_run _ _ _ Hrows)).
Qed.

Lemma get_file_paths_of_keys_witness :
  get_file_paths (Some [2; 1])
    (run [(no_files, Register "a.fits" 1 FileStatus.expected 0);
          (no_files, Register "b.fits" 1 FileStatus.expected 0)]
         (start "/data/"))
  = (Return ["b.fits"; "a.fits"],
     run [(no_files, Register "a.fits" 1 FileStatus.expected 0);
          (no_files, Register "b.fits" 1 FileStatus.expected 0)]
         (start "/data/")).
Proof.
  apply (get_file_paths_of_keys _ [2; 1]
           [{| col_key := 2; col_path := "b.fits"; col_creator := 1;
               col_timestamp := 0; col_status := FileStatus.expected;
               col_flags := 0 |};
            {| col_key := 1; col_path := "a.fits"; col_creator := 1;
               col_timestamp := 0; col_status := FileStatus.expected;
               col_flags := 0 |}]).
  repeat (constructor; [split; [lia | reflexivity]|]). constructor.
Defined.



(** X23. [get_file_paths] reads the key [0] as the index [-1]: in a table
    that is not empty it returns the path of the last row.  A key beyond
    the length of the table raises [IndexError]. *)
Theorem get_file_paths_edges (w : World) :
  (forall (rows : list Row) (row : Row),
     _table (archive w) = rows ++ [row] ->
     get_file_paths (Some [0]) w = (Return [col_path row], w))
  /\ (forall k : Z,
        Archive.table_len (archive w) < k ->
        get_file_paths (Some [k]) w = (Raise IndexError, w)).
Proof.
  split.
  - intros rows row Ht. unfold get_file_paths. cbn [fmap list_fmap take_rows].
    unfold bind at 1. unfold bind at 1. rewrite table_getitem_run. cbn zeta.
    unfold Archive.table_len. rewrite Ht, length_app. cbn [length].
    change (0 - 1 <? 0) with true. cbn match.
    assert ((0 - 1 + Z.of_nat (length rows + 1) <? 0)
            || (Z.of_nat (length rows + 1)
                <=? 0 - 1 + Z.of_nat (length rows + 1)) = false) as ->.
    { apply orb_false_iff. split; [apply Z.ltb_ge | apply Z.leb_gt]; lia. }
    replace (Z.to_nat (0 - 1 + Z.of_nat (length rows + 1)))
      with (length rows) by lia.
    by rewrite list_lookup_middle.
  - intros k Hk. unfold get_file_paths. cbn [fmap list_fmap take_rows].
    unfold bind at 1. unfold bind at 1. rewrite table_getitem_run. cbn zeta.
    unfold Archive.table_len in *.
    assert ((k - 1 <? 0) = false) as -> by lia.
    assert ((k - 1 <? 0) || (Z.of_nat (length (_table (archive w)))
                            <=? k - 1) = true) as ->.
    { apply orb_true_iff. right. lia. }
    reflexivity.
Qed.

Lemma get_file_paths_edges_witness :
  get_file_paths (Some [0])
    (run [(no_files, Register "a.fits" 1 FileStatus.expected 0);
          (no_files, Register "b.fits" 1 FileStatus.expected 0)]
         (start "/data/"))
  = (Return ["b.fits"],
     run [(no_files, Register "a.fits" 1 FileStatus.expected 0);
          (no_files, Register "b.fits" 1 FileStatus.expected 0)]
         (start "/data/"))
  /\ get_file_paths (Some [1]) (start "/data/")
     = (Raise IndexError, start "/data/").
Proof.
  split.
  - apply (proj1 (get_file_paths_edges _)
             [{| col_key := 1; col_path := "a.fits"; col_creator := 1;
                 col_timestamp := 0; col_status := FileStatus.expected;
                 col_flags := 0 |}]
             {| col_key := 2; col_path := "b.fits"; col_creator := 1;
                col_timestamp := 0; col_status := FileStatus.expected;
                col_flags := 0 |}).
    reflexivity.
  - apply (proj2 (get_file_paths_edges (start "/data/")) 1). reflexivity.
Defined.

(** ** Building the archive from a table *)

Section Loading.

Lemma seq_lookup_rows (pre t : list Row) :
  Forall2 (fun i row => (pre ++ t) !! i = Some row)
          (seq (length pre) (length t)) t.
Proof.
  revert pre. induction t as [|row t IH]; intros pre; [constructor|].
  cbn [length seq]. constructor; [by apply list_lookup_middle|].
  specialize (IH (pre ++ [row])).
  rewrite length_app, <- app_assoc in IH. cbn in IH.
  by replace (length pre + 1)%nat with (S (length pre)) in IH by lia.
Qed.

(** The loop of [_fill_cache] over row numbers of the table. *)
Lemma fill_rows_run (irows : list nat) (rows : list Row) w :
  Forall2 (fun i row => _table (archive w) !! i = Some row) irows rows ->
  fill_rows irows w
  = (Return tt,
     {| archive :=
          {| _table := _table (archive w);
             _cache := foldl (fun cache row =>
                                <[col_path row := _create_from_row row]> cache)
                             (_cache (archive w)) rows;
             _base_path := _base_path (archive w) |};
        stdout := stdout w |}).
Proof.
  revert rows w. induction irows as [|i irows IH]; intros rows w Hrows.
  - inversion Hrows; subst. by destruct w as [[t c b] out].
  - inversion Hrows as [|? row ? rows' Hrow Hrest]; subst.
    cbn [fill_rows foldl].
    assert (_make_file_handle i w = (Return (_create_from_row row), w)) as Hi.
    { unfold _make_file_handle.
      by rewrite (bind_Return _ _ _ _ _ (table_getitem_row _ _ _ Hrow)). }
    rewrite (bind_Return _ _ _ _ _ Hi).
    assert (Archive.cache_setitem (path (_create_from_row row))
              (_create_from_row row) w
            = (Return tt, with_handle w (col_path row) (_create_from_row row)))
      as Hset by reflexivity.
    rewrite (bind_Return _ _ _ _ _ Hset). by rewrite (IH rows').
Qed.

Lemma _fill_cache_run w :
  _fill_cache w
  = (Return tt,
     {| archive :=
          {| _table := _table (archive w);
             _cache := foldl (fun cache row =>
                                <[col_path row := _create_from_row row]> cache)
                             (_cache (archive w)) (_table (archive w));
             _base_path := _base_path (archive w) |};
        stdout := stdout w |}).
Proof.
  unfold _fill_cache, bind, get_archive.
  apply fill_rows_run. apply (seq_lookup_rows []).
Qed.

Lemma init_run (tables : TableFiles) (kwargs : gmap string string)
    (base_path table_file : string) w :
  kwargs !! "base_path" = Some base_path ->
  kwargs !! "file_archive_table" = Some table_file ->
  init tables kwargs w
  = (Return tt, loaded base_path (default [] (tables table_file)) (stdout w)).
Proof.
  intros Hb Hf. unfold init. rewrite Hb, Hf.
  unfold _read_table_file, bind, get_archive, put_archive.
  cbn -[_fill_cache]. rewrite _fill_cache_run. cbn.
  unfold loaded, cache_of. by destruct (tables table_file).
Qed.

Lemma cache_of_snoc (table : list Row) (row : Row) :
  cache_of (table ++ [row])
  = <[col_path row := _create_from_row row]> (cache_of table).
Proof. unfold cache_of. by rewrite foldl_app. Qed.

(** The handle of a path is made from the last row that has the path. *)
Lemma cache_of_lookup (table : list Row) (p : string) :
  cache_of table !! p
  = _create_from_row <$> last (filter (fun row => col_path row = p) table).
Proof.
  induction table as [|row table IH] using rev_ind; [reflexivity|].
  rewrite cache_of_snoc, filter_app, filter_cons, filter_nil.
  destruct (decide (col_path row = p)) as [<-|Hne].
  - by rewrite lookup_insert_eq, last_snoc.
  - by rewrite lookup_insert_ne, app_nil_r.
Qed.

Lemma filter_path_absent (table : list Row) (p : string) :
  p ∉ col_path <$> table -> filter (fun r => col_path r = p) table = [].
Proof.
  induction table as [|r table IH]; intros Hp; [reflexivity|].
  cbn in Hp. apply not_elem_of_cons in Hp as [Hne Hp].
  rewrite filter_cons, decide_False by done. by apply IH.
Qed.

Lemma filter_path_NoDup (table : list Row) (row : Row) :
  NoDup (col_path <$> table) -> row ∈ table ->
  filter (fun r => col_path r = col_path row) table = [row].
Proof.
  induction table as [|r table IH]; intros Hnd Hin;
    [by apply elem_of_nil in Hin|].
  cbn in Hnd. apply NoDup_cons in Hnd as [Hr Hnd]. rewrite filter_cons.
  apply elem_of_cons in Hin as [->|Hin].
  - rewrite decide_True by done. f_equal. by apply filter_path_absent.
  - rewrite decide_False; [by apply IH|].
    intros Heq. apply Hr. rewrite Heq. by apply list_elem_of_fmap_2.
Qed.

(** The archive made from a table in which no path comes twice. *)
Lemma loaded_lock_step (base_path : string) (table : list Row)
    (out : list string) :
  NoDup (col_path <$> table) ->
  lock_step (archive (loaded base_path table out)).
Proof.
  intros Hnd. split; cbn.
  - intros row Hrow. by rewrite cache_of_lookup, filter_path_NoDup.
  - intros p h Hh. rewrite cache_of_lookup in Hh.
    destruct (last (filter (fun row => col_path row = p) table)) as [row|]
      eqn:Hlast; [|discriminate Hh].
    injection Hh as <-. apply last_Some_elem_of in Hlast.
    apply list_elem_of_filter in Hlast as [_ Hin]. by destruct row.
Qed.

End Loading.

(** X24. [__init__] needs both keywords: without [base_path] or without
    [file_archive_table] it raises [KeyError].  With both, and no file at
    the place of the table, it builds the empty archive on the base path. *)
Theorem init_without_table (tables : TableFiles)
    (kwargs : gmap string string) (w : World) :
  (kwargs !! "base_path" = None \/ kwargs !! "file_archive_table" = None ->
   fst (init tables kwargs w) = Raise KeyError)
  /\ (forall base_path table_file : string,
        kwargs !! "base_path" = Some base_path ->
        kwargs !! "file_archive_table" = Some table_file ->
        tables table_file = None ->
        init tables kwargs w
        = (Return tt,
           {| archive := Archive.fresh base_path; stdout := stdout w |})).
Proof.
  split.
  - unfold init. intros [Hb|Hf]; [by rewrite Hb|].
    destruct (kwargs !! "base_path"); [|reflexivity]. by rewrite Hf.
  - intros base_path table_file Hb Hf Ht.
    by rewrite (init_run _ _ _ _ _ Hb Hf), Ht.
Qed.

Lemma init_without_table_witness :
  fst (init (fun _ => None) {["base_path" := "/data/"]} (start ""))
  = Raise KeyError
  /\ init (fun _ => None)
       (<["base_path" := "/data/"]> {["file_archive_table" := "files.fits"]})
       (start "")
     = (Return tt, {| archive := Archive.fresh "/data/";
                      stdout := stdout (start "") |}).
Proof.
  split.
  - apply (proj1 (init_without_table (fun _ => None)
                    {["base_path" := "/data/"]} (start ""))).
    right. reflexivity.
  - apply (proj2 (init_without_table (fun _ => None)
                    (<["base_path" := "/data/"]>
                       {["file_archive_table" := "files.fits"]}) (start ""))
             "/data/" "files.fits"); reflexivity.
Defined.


(** X25. [__init__] with a table file keeps the rows that were read as the
    table and gives every path the handle made from the last row that has
    the path; when no path comes twice in the table, table and cache hold
    the same records. *)
Theorem init_from_table (tables : TableFiles) (kwargs : gmap string string)
    (base_path table_file : string) (table : list Row) (w : World) :
  kwargs !! "base_path" = Some base_path ->
  kwargs !! "file_archive_table" = Some table_file ->
  tables table_file = Some table ->
  exists w' : World,
    init tables kwargs w = (Return tt, w')
    /\ _table (archive w') = table
    /\ _base_path (archive w') = base_path
    /\ (forall p : string,
          _cache (archive w') !! p
          = _create_from_row
              <$> last (filter (fun row => col_path row = p) table))
    /\ (NoDup (col_path <$> table) -> lock_step (archive w')).
Proof.
  intros Hb Hf Ht. eexists. split; [by apply init_run|]. rewrite Ht. cbn.
  split; [reflexivity|]. split; [reflexivity|].
  split; [apply cache_of_lookup|].
  apply (loaded_lock_step base_path table (stdout w)).
Qed.

Lemma init_from_table_witness :
  exists w' : World,
    init (fun _ => Some [{| col_key := 1; col_path := "a.fits";
                            col_creator := 7; col_timestamp := 0;
                            col_status := FileStatus.expected;
                            col_flags := 0 |}])
      (<["base_path" := "/data/"]> {["file_archive_table" := "files.fits"]})
      (start "")
    = (Return tt, w')
    /\ Archive.get_handle "a.fits" w'
       = (Return {| key := 1; creator := 7; timestamp := 0;
                    status := FileStatus.expected; flags := 0;
                    path := "a.fits" |}, w').
Proof.
  assert ((<["base_path" := "/data/"]>
             {["file_archive_table" := "files.fits"]} : gmap string string)
          !! "base_path" = Some "/data/") as Hb by (vm_compute; reflexivity).
  assert ((<["base_path" := "/data/"]>
             {["file_archive_table" := "files.fits"]} : gmap string string)
          !! "file_archive_table" = Some "files.fits") as Hf
    by (vm_compute; reflexivity).
  destruct (init_from_table
              (fun _ => Some [{| col_key := 1; col_path := "a.fits";
                                 col_creator := 7; col_timestamp := 0;
                                 col_status := FileStatus.expected;
                                 col_flags := 0 |}])
              _ "/data/" "files.fits" _ (start "") Hb Hf eq_refl)
    as (w' & Hinit & _ & Hbase & Hcache & _).
  exists w'. split; [exact Hinit|].
  rewrite get_handle_run. unfold local_of. rewrite Hbase, Hcache.
  reflexivity.
Defined.

Lemma update_file_key_beyond_table_witness :
  exists (localpath : string),
    Archive._get_localpath "a.fits"
      (loaded "/data/"
         [{| col_key := 5; col_path := "a.fits"; col_creator := 7;
             col_timestamp := 0; col_status := FileStatus.expected;
             col_flags := 0 |}] [])
    = (Return localpath,
       loaded "/data/"
         [{| col_key := 5; col_path := "a.fits"; col_creator := 7;
             col_timestamp := 0; col_status := FileStatus.expected;
             col_flags := 0 |}] [])
    /\ Archive.update_file no_files "a.fits" 8 FileStatus.temp_removed
         (loaded "/data/"
            [{| col_key := 5; col_path := "a.fits"; col_creator := 7;
                col_timestamp := 0; col_status := FileStatus.expected;
                col_flags := 0 |}] [])
       = (Raise IndexError,
          with_handle
            (loaded "/data/"
               [{| col_key := 5; col_path := "a.fits"; col_creator := 7;
                   col_timestamp := 0; col_status := FileStatus.expected;
                   col_flags := 0 |}] [])
            localpath
            (updated {| key := 5; creator := 7; timestamp := 0;
                        status := FileStatus.expected; flags := 0;
                        path := "a.fits" |}
               8 0 FileStatus.temp_removed)).
Proof.
  apply (update_file_key_beyond_table no_files _ "a.fits" 8
           FileStatus.temp_removed
           {| key := 5; creator := 7; timestamp := 0;
              status := FileStatus.expected; flags := 0; path := "a.fits" |}).
  - vm_compute. reflexivity.
  - discriminate.
  - discriminate.
  - vm_compute. reflexivity.
Defined.

(** ** Reading the table of a running archive *)

Section Rows_tracked.

Context (fs : FileSystem).






End Rows_tracked.







(** ** Absolute and relative paths *)

(** X27. A path made of the base path and a relative path behind it, in
    which the base path does not occur, and that relative path have the
    same local path: [get_handle] gives the same for both. *)
Theorem get_handle_absolute_relative (w : World) (rel : string) :
  _base_path (archive w) <> "" ->
  Py.contains rel (_base_path (archive w)) = false ->
  Archive._get_localpath (_base_path (archive w) +:+ rel) w = (Return rel, w)
  /\ Archive._get_localpath rel w = (Return rel, w)
  /\ Archive.get_handle (_base_path (archive w) +:+ rel) w
     = Archive.get_handle rel w.
Proof.
  intros Hne Habs.
  assert (local_of (archive w) (_base_path (archive w) +:+ rel) = rel) as H1.
  { unfold local_of. by apply replace_base_front. }
  assert (local_of (archive w) rel = rel) as H2.
  { unfold local_of, Py.replace.
    destruct (_base_path (archive w)) as [|c base]; [done|].
    by apply replace_go_absent. }
  rewrite !_get_localpath_run, !get_handle_run, H1, H2. by repeat split.
Qed.

Lemma get_handle_absolute_relative_witness :
  Archive.get_handle ("/data/" +:+ "run1/evt.fits")
    (run [(no_files, Register "run1/evt.fits" 7 FileStatus.expected 0)]
         (start "/data/"))
  = Archive.get_handle "run1/evt.fits"
      (run [(no_files, Register "run1/evt.fits" 7 FileStatus.expected 0)]
           (start "/data/")).
Proof.
  apply (get_handle_absolute_relative
           (run [(no_files, Register "run1/evt.fits" 7 FileStatus.expected 0)]
                (start "/data/")) "run1/evt.fits").
  - discriminate.
  - reflexivity.
Defined.

(** ** The views list every path once *)

Lemma collect_NoDup (test : Z -> bool) (items : list (string * Z))
    (acc : list string) :
  NoDup items.*1 -> NoDup acc ->
  (forall p, p ∈ acc -> p ∉ items.*1) ->
  NoDup (foldl (fun ret_list item =>
                  if test (snd item) then ret_list ++ [fst item]
                  else ret_list)
               acc items).
Proof.
  revert acc. induction items as [|[k v] items IH]; intros acc Hit Hacc Hdis;
    [done|].
  cbn in Hit. apply NoDup_cons in Hit as [Hk Hit]. cbn [foldl fst snd].
  apply IH; [done| |].
  - destruct (test v); [|done]. apply NoDup_app. split; [done|]. split.
    + intros p Hp Hpk. apply list_elem_of_singleton in Hpk as ->.
      apply (Hdis k Hp). cbn. apply elem_of_cons. by left.
    + apply NoDup_singleton.
  - intros p Hp.
    assert (p ∈ acc \/ p = k) as [Hp'|Hpk].
    { destruct (test v); [|by left].
      apply elem_of_app in Hp as [Hp|Hp]; [by left|].
      right. by apply list_elem_of_singleton in Hp. }
    + intros Hin. apply (Hdis p Hp'). cbn. apply elem_of_cons. by right.
    + by subst p.
Qed.

(** X28. Each view of a classifier lists every path at most once, and
    only paths that have an entry in the flags map. *)
Theorem views_list_paths_once (d : gmap string Z) :
  let views := [FileViews.input_files d; FileViews.output_files d;
                FileViews.chain_input_files d; FileViews.chain_output_files d;
                FileViews.internal_files d; FileViews.temp_files d;
                FileViews.gzip_files d] in
  Forall (fun view => NoDup view
                      /\ forall p : string, p ∈ view -> is_Some (d !! p))
         views.
Proof.
  assert (forall test,
            NoDup (FileViews.collect test (map_to_list d))
            /\ forall p, p ∈ FileViews.collect test (map_to_list d) ->
                         is_Some (d !! p)) as Hview.
  { intros test. split.
    - apply collect_NoDup; [apply NoDup_fst_map_to_list | constructor|].
      intros p Hp. by apply elem_of_nil in Hp.
    - intros p (v & Hv & _)%collect_map. by exists v. }
  cbn zeta. repeat (apply Forall_cons; split; [apply Hview|]).
  apply Forall_nil_2.
Qed.
